(** * Sales Trend Explorer: the data pipeline of [app.py]

    A shallow embedding of the synthetic data generator
    ([load_sample_data]) and of the four aggregations that feed the charts
    ([create_line_plot], [create_bar_chart], the top sub-categories of
    [main], [create_heatmap]), followed by the properties the specification
    states about them.

    Numbers: the floating-point columns (Sales, Profit) are embedded as exact
    rationals [Q]; equalities between sums are stated up to [Qeq].
    Randomness: numpy's global generator is an interface ([RandomState])
    whose draws obey the documented ranges; the code is modelled for every
    implementation of that interface.
    pandas: [groupby(..).sum()] lists one row per observed key, keys in
    ascending order; [unstack(fill_value=0)] pivots the second key level into
    columns; [sort_values(ascending=False)] goes through an index sort whose
    behaviour on ties is that of the sorting algorithm ([ArgSort]). *)

From Stdlib Require Import ZArith QArith List String Bool Lia Lqa.
From Stdlib Require Import Sorted Permutation OrdersEx DecimalString.
Import ListNotations.

Local Open Scope string_scope.
Local Open Scope list_scope.
Local Open Scope Z_scope.

(* ================================================================== *)
(** ** Calendar dates (pandas [Timestamp] at day resolution)          *)
(* ================================================================== *)

Record Timestamp := mkTimestamp { ts_year : Z; ts_month : Z; ts_day : Z }.

Definition is_leap (y : Z) : bool :=
  ((y mod 4 =? 0) && negb (y mod 100 =? 0)) || (y mod 400 =? 0).

Definition days_in_month (y m : Z) : Z :=
  if m =? 2 then (if is_leap y then 29 else 28)
  else if (m =? 4) || (m =? 6) || (m =? 9) || (m =? 11) then 30
  else 31.

Definition next_day (d : Timestamp) : Timestamp :=
  if ts_day d <? days_in_month (ts_year d) (ts_month d)
  then mkTimestamp (ts_year d) (ts_month d) (ts_day d + 1)
  else if ts_month d <? 12
       then mkTimestamp (ts_year d) (ts_month d + 1) 1
       else mkTimestamp (ts_year d + 1) 1 1.

(** Chronological order on timestamps. *)
Definition ts_leb (a b : Timestamp) : bool :=
  (ts_year a <? ts_year b)
  || ((ts_year a =? ts_year b)
      && ((ts_month a <? ts_month b)
          || ((ts_month a =? ts_month b) && (ts_day a <=? ts_day b)))).

Fixpoint date_range_from (fuel : nat) (d stop : Timestamp) : list Timestamp :=
  match fuel with
  | O => []
  | S fuel' =>
      if ts_leb d stop then d :: date_range_from fuel' (next_day d) stop else []
  end.

(** [pd.date_range(start, stop, freq='D')]: every day from [start] to
    [stop], both included.  The fuel is an upper bound on the number of
    days of the years spanned. *)
Definition date_range (start stop : Timestamp) : list Timestamp :=
  date_range_from (Z.to_nat (366 * (ts_year stop - ts_year start + 1))) start stop.

(** A monthly [Period] (the result of [dt.to_period('M')]): year and month,
    ordered chronologically. *)
Definition Period : Type := (Z * Z)%type.

Definition to_period (d : Timestamp) : Period := (ts_year d, ts_month d).

(* ================================================================== *)
(** ** Rows and the data frame                                        *)
(* ================================================================== *)

(** One dictionary appended to [data] in the generator loop. *)
Record Row := mkRow {
  row_date : Timestamp;
  row_category : string;
  row_sub_category : string;
  row_region : string;
  row_sales : Q;
  row_profit : Q;
  row_quantity : Z
}.

(** One row of the data frame returned by [load_sample_data]: the seven
    generated columns and the three derived ones. *)
Record Order := mkOrder {
  order_date : Timestamp;
  category : string;
  sub_category : string;
  region : string;
  sales : Q;
  profit : Q;
  quantity : Z;
  year : Z;
  month : Z;
  year_month : Period
}.

Definition DataFrame : Type := list Order.

(** Lines 75-79: the frame is built from [data] and the columns Year, Month
    and Year-Month are derived from Order Date. *)
Definition annotate (r : Row) : Order :=
  {| order_date := row_date r;
     category := row_category r;
     sub_category := row_sub_category r;
     region := row_region r;
     sales := row_sales r;
     profit := row_profit r;
     quantity := row_quantity r;
     year := ts_year (row_date r);
     month := ts_month (row_date r);
     year_month := to_period (row_date r) |}.

(* ================================================================== *)
(** ** The constants of [load_sample_data]                            *)
(* ================================================================== *)

Definition first_day : Timestamp := mkTimestamp 2021 1 1.
Definition last_day : Timestamp := mkTimestamp 2023 12 31.

Definition dates : list Timestamp := date_range first_day last_day.

Definition categories : list string :=
  ["Technology"; "Furniture"; "Office Supplies"].

Definition subcategories : list (string * list string) :=
  [ ("Technology", ["Phones"; "Computers"; "Accessories"]);
    ("Furniture", ["Chairs"; "Tables"; "Storage"]);
    ("Office Supplies", ["Paper"; "Binders"; "Art"]) ].

Definition regions : list string := ["Central"; "East"; "South"; "West"].

Definition base_sales_table : list (string * Z) :=
  [ ("Technology", 1000); ("Furniture", 800); ("Office Supplies", 300) ].

(** Subscripting a dictionary literal: [None] stands for [KeyError]. *)
Fixpoint dict_get {V : Type} (k : string) (d : list (string * V)) : option V :=
  match d with
  | [] => None
  | (k', v) :: d' => if String.eqb k k' then Some v else dict_get k d'
  end.

(** Python's [max(a, b)]: [b] only when it is strictly greater. *)
Definition py_max (a b : Q) : Q := if Qle_bool b a then a else b.

(* ================================================================== *)
(** ** The random source                                              *)
(* ================================================================== *)

(** numpy's legacy global generator, as far as the program uses it.  The
    state is threaded explicitly; every draw returns the value and the next
    state.  The two laws are the documented ranges of [randint] (half-open)
    and [uniform]; [normal] may return any number. *)
Class RandomState := {
  rng : Type;
  seed : Z -> rng;
  randint : Z -> Z -> rng -> Z * rng;
  normal : Q -> Q -> rng -> Q * rng;
  uniform : Q -> Q -> rng -> Q * rng;
  randint_range : forall lo hi g,
    lo < hi -> lo <= fst (randint lo hi g) < hi;
  uniform_range : forall lo hi g,
    (lo <= hi)%Q -> (lo <= fst (uniform lo hi g) <= hi)%Q
}.

Section Generator.
Context {RS : RandomState}.

(** Computations that read and update the generator state and may raise. *)
Definition M (A : Type) : Type := rng -> option (A * rng).

Definition ret {A} (a : A) : M A := fun g => Some (a, g).

Definition bind {A B} (m : M A) (k : A -> M B) : M B :=
  fun g => match m g with
           | Some (a, g') => k a g'
           | None => None
           end.

Definition raise {A} : M A := fun _ => None.

Definition lift {A} (draw : rng -> A * rng) : M A := fun g => Some (draw g).

Definition of_option {A} (o : option A) : M A :=
  match o with Some a => ret a | None => raise end.

(** [np.random.seed(s)]: the state is replaced, whatever it was. *)
Definition set_seed (s : Z) : M unit := fun _ => Some (tt, seed s).

(** [np.random.choice(a)]: an index drawn with [randint(0, len(a))];
    an empty [a] raises. *)
Definition choice {A} (l : list A) : M A :=
  match l with
  | [] => raise
  | _ :: _ =>
      bind (lift (randint 0 (Z.of_nat (List.length l))))
           (fun i => of_option (nth_error l (Z.to_nat i)))
  end.

Notation "x <- m ;; k" := (bind m (fun x => k))
  (at level 61, m at next level, right associativity).

(** The body of the loop, lines 54-73. *)
Definition draw_row : M Row :=
  date <- choice dates ;;
  category <- choice categories ;;
  subs <- of_option (dict_get category subcategories) ;;
  subcategory <- choice subs ;;
  region <- choice regions ;;
  base_sales <- of_option (dict_get category base_sales_table) ;;
  sales <- lift (normal (inject_Z base_sales) (inject_Z base_sales * (3 # 10))) ;;
  factor <- lift (uniform (1 # 10) (3 # 10)) ;;
  let profit := (sales * factor)%Q in
  quantity <- lift (randint 1 10) ;;
  ret {| row_date := date;
         row_category := category;
         row_sub_category := subcategory;
         row_region := region;
         row_sales := py_max sales 50;
         row_profit := profit;
         row_quantity := quantity |}.

(** [for _ in range(n): data.append(...)]. *)
Fixpoint for_range (n : nat) (data : list Row) : M (list Row) :=
  match n with
  | O => ret data
  | S n' => r <- draw_row ;; for_range n' (data ++ [r])
  end.

(** The generator with its seed made a parameter. *)
Definition generate (s : Z) : M DataFrame :=
  _ <- set_seed s ;;
  data <- for_range 5000 [] ;;
  ret (map annotate data).

(** [load_sample_data()], line 40: the seed is 42. *)
Definition load_sample_data : M DataFrame := generate 42.

End Generator.

(* ================================================================== *)
(** ** Group keys and their order                                     *)
(* ================================================================== *)

(** pandas sorts the group keys ([groupby(..., sort=True)] is the default).
    A key type comes with a decidable strict total order. *)
Class Key (K : Type) := {
  key_ltb : K -> K -> bool;
  key_ltb_irrefl : forall a, key_ltb a a = false;
  key_ltb_trans : forall a b c,
    key_ltb a b = true -> key_ltb b c = true -> key_ltb a c = true;
  key_ltb_total : forall a b,
    key_ltb a b = false -> key_ltb b a = false -> a = b
}.

Definition key_eqb {K} `{Key K} (a b : K) : bool :=
  negb (key_ltb a b) && negb (key_ltb b a).

(** Strings compare lexicographically by character code, as Python's
    [str] does. *)
Definition string_ltb (a b : string) : bool :=
  match String_as_OT.compare a b with Lt => true | _ => false end.

(** Tuples compare lexicographically (the levels of a [MultiIndex]). *)
Definition pair_ltb {A B} `{Key A} `{Key B} (x y : A * B) : bool :=
  key_ltb (fst x) (fst y)
  || (negb (key_ltb (fst y) (fst x)) && key_ltb (snd x) (snd y)).

Section GroupBy.
Context {K : Type} `{Key K}.

Fixpoint insert_key (k : K) (l : list K) : list K :=
  match l with
  | [] => [k]
  | k' :: l' =>
      if key_ltb k k' then k :: l
      else if key_ltb k' k then k' :: insert_key k l'
      else l
  end.

(** The distinct keys of a column, in ascending order. *)
Definition sorted_keys (l : list K) : list K := fold_right insert_key [] l.

(** [Series.sum()] of a column of numbers. *)
Definition Qsum (l : list Q) : Q := fold_right Qplus 0%Q l.

(** The rows of one group. *)
Definition group {R : Type} (key : R -> K) (k : K) (df : list R) : list R :=
  filter (fun r => key_eqb (key r) k) df.

(** [df.groupby(key)[val].sum()]: a series indexed by the observed keys, in
    ascending key order, each with the sum of [val] over its group. *)
Definition groupby_sum {R : Type} (key : R -> K) (val : R -> Q) (df : list R)
  : list (K * Q) :=
  map (fun k => (k, Qsum (map val (group key k df)))) (sorted_keys (map key df)).

(** The entry of a series at a label. *)
Fixpoint series_get (k : K) (s : list (K * Q)) : option Q :=
  match s with
  | [] => None
  | (k', v) :: s' => if key_eqb k k' then Some v else series_get k s'
  end.

End GroupBy.

(* ================================================================== *)
(** ** Pivoting and sorting a series                                  *)
(* ================================================================== *)

Section Unstack.
Context {A B : Type} `{Key A} `{Key B}.

(** [Series.unstack(fill_value=fill)] of a series indexed by pairs: one row
    per first-level label of the series, one column per second-level label
    of the series, both ascending; absent pairs receive [fill]. *)
Definition unstack (fill : Q) (s : list ((A * B) * Q))
  : list (A * list (B * Q)) :=
  let rows := sorted_keys (map (fun e => fst (fst e)) s) in
  let cols := sorted_keys (map (fun e => snd (fst e)) s) in
  map (fun r =>
         (r, map (fun c =>
                    (c, match find (fun e => key_eqb (fst (fst e)) r
                                             && key_eqb (snd (fst e)) c) s with
                        | Some e => snd e
                        | None => fill
                        end)) cols)) rows.

(** The cell of a matrix at a row label and a column label. *)
Definition matrix_get (m : list (A * list (B * Q))) (r : A) (c : B) : option Q :=
  match find (fun row => key_eqb (fst row) r) m with
  | Some row => series_get c (snd row)
  | None => None
  end.

End Unstack.

(** The index sort behind [sort_values]: [argsort v] lists the positions of
    [v] in ascending order of their values.  pandas passes
    [kind='quicksort'] by default, which promises no particular order among
    equal values; the two laws are what every [kind] guarantees. *)
Class ArgSort := {
  argsort : list Q -> list nat;
  argsort_perm : forall v,
    Permutation (argsort v) (seq 0 (List.length v));
  argsort_sorted : forall v,
    StronglySorted Qle (map (fun i => nth i v 0%Q) (argsort v))
}.

Section SortValues.
Context {AS : ArgSort}.

(** pandas' [nargsort(values, ascending=False)]: the values and their
    positions are reversed, sorted ascending, and the result is reversed. *)
Definition nargsort_desc (values : list Q) : list nat :=
  let non_nans := rev values in
  let non_nan_idx := rev (seq 0 (List.length values)) in
  let indexer := map (fun j => nth j non_nan_idx 0%nat) (argsort non_nans) in
  rev indexer.

(** [s.sort_values(ascending=False)]: the entries of [s] taken at the
    positions of the indexer.  The indexer is a permutation of the positions
    of [s], so the default of [nth] is never read. *)
Definition sort_values_desc {K : Type} (s : list (K * Q)) : list (K * Q) :=
  match s with
  | [] => []
  | d :: _ => map (fun i => nth i s d) (nargsort_desc (map snd s))
  end.

(** [s.head(n)]. *)
Definition head {A : Type} (n : nat) (s : list A) : list A := firstn n s.

End SortValues.

(* ================================================================== *)
(** ** The key orders used by the program                             *)
(* ================================================================== *)

Lemma key_ltb_asym {K} `{Key K} (a b : K) :
  key_ltb a b = true -> key_ltb b a = false.
Proof.
  intros Hab. destruct (key_ltb b a) eqn:Hba; [|reflexivity].
  rewrite <- (key_ltb_irrefl a). symmetry. eapply key_ltb_trans; eassumption.
Qed.

Lemma key_eqb_eq {K} `{Key K} (a b : K) : key_eqb a b = true <-> a = b.
Proof.
  unfold key_eqb. split.
  - intros E. apply andb_true_iff in E. destruct E as [E1 E2].
    apply negb_true_iff in E1, E2. now apply key_ltb_total.
  - intros ->. now rewrite key_ltb_irrefl.
Qed.

Lemma key_eqb_refl {K} `{Key K} (a : K) : key_eqb a a = true.
Proof. now apply key_eqb_eq. Qed.

Lemma string_ltb_irrefl a : string_ltb a a = false.
Proof.
  unfold string_ltb. destruct (String_as_OT.compare a a) eqn:E; try reflexivity.
  exfalso. exact (StrictOrder_Irreflexive (R := String_as_OT.lt) a E).
Qed.

Lemma string_ltb_lt a b : string_ltb a b = true <-> String_as_OT.lt a b.
Proof.
  unfold string_ltb, String_as_OT.lt.
  destruct (String_as_OT.compare a b); split; congruence.
Qed.

Lemma string_ltb_trans a b c :
  string_ltb a b = true -> string_ltb b c = true -> string_ltb a c = true.
Proof.
  rewrite !string_ltb_lt. apply (StrictOrder_Transitive (R := String_as_OT.lt)).
Qed.

Lemma string_ltb_total a b :
  string_ltb a b = false -> string_ltb b a = false -> a = b.
Proof.
  intros Hab Hba.
  destruct (String_as_OT.compare_spec a b) as [E | L | L].
  - exact E.
  - apply string_ltb_lt in L. congruence.
  - apply string_ltb_lt in L. congruence.
Qed.

#[export] Instance string_key : Key string :=
  {| key_ltb := string_ltb;
     key_ltb_irrefl := string_ltb_irrefl;
     key_ltb_trans := string_ltb_trans;
     key_ltb_total := string_ltb_total |}.

Lemma Z_ltb_trans a b c : (a <? b) = true -> (b <? c) = true -> (a <? c) = true.
Proof. rewrite !Z.ltb_lt. lia. Qed.

Lemma Z_ltb_total a b : (a <? b) = false -> (b <? a) = false -> a = b.
Proof. rewrite !Z.ltb_ge. lia. Qed.

#[export] Instance Z_key : Key Z :=
  {| key_ltb := Z.ltb;
     key_ltb_irrefl := Z.ltb_irrefl;
     key_ltb_trans := Z_ltb_trans;
     key_ltb_total := Z_ltb_total |}.

Section PairKey.
Context {A B : Type} `{Key A} `{Key B}.

Lemma pair_ltb_irrefl (x : A * B) : pair_ltb x x = false.
Proof. unfold pair_ltb. now rewrite !key_ltb_irrefl. Qed.

Lemma pair_ltb_trans (x y z : A * B) :
  pair_ltb x y = true -> pair_ltb y z = true -> pair_ltb x z = true.
Proof.
  destruct x as [x1 x2], y as [y1 y2], z as [z1 z2]. unfold pair_ltb. simpl.
  intros Hxy Hyz.
  destruct (key_ltb x1 y1) eqn:Exy; simpl in Hxy.
  - destruct (key_ltb y1 z1) eqn:Eyz; simpl in Hyz.
    + now rewrite (key_ltb_trans _ _ _ Exy Eyz).
    + apply andb_true_iff in Hyz. destruct Hyz as [Hzy _].
      apply negb_true_iff in Hzy.
      rewrite <- (key_ltb_total _ _ Eyz Hzy). now rewrite Exy.
  - apply andb_true_iff in Hxy. destruct Hxy as [Hyx Hx2].
    apply negb_true_iff in Hyx.
    rewrite (key_ltb_total _ _ Exy Hyx).
    destruct (key_ltb y1 z1) eqn:Eyz; simpl in Hyz; [reflexivity|].
    apply andb_true_iff in Hyz. destruct Hyz as [Hzy Hy2].
    rewrite Hzy. simpl. eapply key_ltb_trans; eassumption.
Qed.

Lemma pair_ltb_total (x y : A * B) :
  pair_ltb x y = false -> pair_ltb y x = false -> x = y.
Proof.
  destruct x as [x1 x2], y as [y1 y2]. unfold pair_ltb. simpl.
  intros Hxy Hyx.
  apply orb_false_iff in Hxy, Hyx.
  destruct Hxy as [E1 Hxy], Hyx as [E2 Hyx].
  rewrite E2 in Hxy. rewrite E1 in Hyx. simpl in Hxy, Hyx.
  f_equal; now apply key_ltb_total.
Qed.

#[export] Instance pair_key : Key (A * B) :=
  {| key_ltb := pair_ltb;
     key_ltb_irrefl := pair_ltb_irrefl;
     key_ltb_trans := pair_ltb_trans;
     key_ltb_total := pair_ltb_total |}.

End PairKey.

(* ================================================================== *)
(** ** The aggregations of the dashboard                              *)
(* ================================================================== *)

(** The year of a period as text, padded with zeros to four digits. *)
Definition year_str (y : Z) : string :=
  String.append
    (if y <? 0 then ""
     else if y <? 10 then "000"
     else if y <? 100 then "00"
     else if y <? 1000 then "0"
     else "")
    (NilZero.string_of_int (Z.to_int y)).

(** [str(Period)] at monthly frequency: ["2021-03"], ["0999-03"]. *)
Definition period_str (p : Period) : string :=
  String.append (year_str (fst p))
    (String.append "-"
       (String.append (if snd p <? 10 then "0" else "")
          (NilZero.string_of_int (Z.to_int (snd p))))).

(** Line 85: [df.groupby(['Year-Month', 'Category'])['Sales'].sum()]
    (the specification's [monthly_category_sales]). *)
Definition monthly_sales (df : DataFrame) : list ((Period * string) * Q) :=
  groupby_sum (fun o => (year_month o, category o)) sales df.

(** Lines 85-86: the table handed to the line plot, the period rendered as
    text after the grouping. *)
Definition create_line_plot (df : DataFrame) : list (string * string * Q) :=
  map (fun e => (period_str (fst (fst e)), snd (fst e), snd e)) (monthly_sales df).

(** Line 96: [df.groupby('Category')['Sales'].sum()]
    (the specification's [category_totals]). *)
Definition category_sales (df : DataFrame) : list (string * Q) :=
  groupby_sum category sales df.

Definition create_bar_chart (df : DataFrame) : list (string * Q) :=
  category_sales df.

(** Line 192:
    [groupby('Sub-Category')['Sales'].sum().sort_values(ascending=False).head(5)]
    (the specification's [top_subcategories(records, 5)]). *)
Definition top_subcats {AS : ArgSort} (df : DataFrame) : list (string * Q) :=
  head 5 (sort_values_desc (groupby_sum sub_category sales df)).

(** Line 107:
    [df.groupby(['Region', 'Category'])['Sales'].sum().unstack(fill_value=0)]
    (the specification's [region_category_matrix]). *)
Definition heatmap_data (df : DataFrame) : list (string * list (string * Q)) :=
  unstack 0%Q (groupby_sum (fun o => (region o, category o)) sales df).

(** The outcome of a call that may raise [ValueError]. *)
Inductive Outcome (A : Type) : Type :=
| Returns (a : A)
| ValueError.

Arguments Returns {A} a.
Arguments ValueError {A}.

(** Whether a matrix has at least one cell. *)
Definition has_cell (m : list (string * list (string * Q))) : bool :=
  existsb (fun row => match snd row with
                      | [] => false
                      | _ :: _ => true
                      end) m.

(** Line 110, [sns.heatmap(heatmap_data, ...)]: seaborn takes the limits of
    its colour scale from the smallest and the largest cell, and that
    reduction raises [ValueError] on a matrix without cells; otherwise the
    figure shows the matrix. *)
Definition sns_heatmap (m : list (string * list (string * Q)))
  : Outcome (list (string * list (string * Q))) :=
  if has_cell m then Returns m else ValueError.

(** Lines 105-113: the pivot of line 107 drawn by line 110. *)
Definition create_heatmap (df : DataFrame)
  : Outcome (list (string * list (string * Q))) :=
  sns_heatmap (heatmap_data df).

(** Lines 140-144: the filtered view, three [isin] masks combined with [&]. *)
Definition filter_df (selected_years : list Z)
  (selected_categories selected_regions : list string) (df : DataFrame)
  : DataFrame :=
  filter (fun o => existsb (Z.eqb (year o)) selected_years
                   && existsb (String.eqb (category o)) selected_categories
                   && existsb (String.eqb (region o)) selected_regions) df.

(** What [main] hands to the four chart widgets; [None] where the guard
    [len(filtered_df) > 0] skips the chart.  A [ValueError] in the last
    field stands for [main] stopping with the exception of
    [create_heatmap]. *)
Record Charts := mkCharts {
  line_fig : option (list (string * string * Q));
  bar_fig : option (list (string * Q));
  top_chart : option (list (string * Q));
  heatmap_fig : option (Outcome (list (string * list (string * Q))))
}.

(** Lines 171-199 of [main]. *)
Definition main_charts {AS : ArgSort} (filtered_df : DataFrame) : Charts :=
  let nonempty := (0 <? List.length filtered_df)%nat in
  {| line_fig := if nonempty then Some (create_line_plot filtered_df) else None;
     bar_fig := if nonempty then Some (create_bar_chart filtered_df) else None;
     top_chart := if nonempty then Some (top_subcats filtered_df) else None;
     heatmap_fig := if nonempty then Some (create_heatmap filtered_df) else None |}.

(* ================================================================== *)
(** ** The sidebar and the key metrics of [main]                      *)
(* ================================================================== *)

(** [Series.unique()]: the distinct values, in order of first appearance. *)
Fixpoint unique {K : Type} `{Key K} (l : list K) : list K :=
  match l with
  | [] => []
  | x :: l' => x :: filter (fun y => negb (key_eqb y x)) (unique l')
  end.

Fixpoint insert_sorted (x : Z) (l : list Z) : list Z :=
  match l with
  | [] => [x]
  | y :: l' => if x <=? y then x :: l else y :: insert_sorted x l'
  end.

(** Python's [sorted] on a list of integers: ascending. *)
Definition py_sorted (l : list Z) : list Z := fold_right insert_sorted [] l.

(** Lines 128, 132 and 136: the options of the three multiselect widgets,
    which are also their default selections. *)
Definition year_options (df : DataFrame) : list Z :=
  py_sorted (unique (map year df)).

Definition category_options (df : DataFrame) : list string :=
  unique (map category df).

Definition region_options (df : DataFrame) : list string :=
  unique (map region df).

(** Lines 151, 155 and 163: three of the four key metrics. *)
Definition total_sales (df : DataFrame) : Q := Qsum (map sales df).

Definition total_profit (df : DataFrame) : Q := Qsum (map profit df).

Definition total_orders (df : DataFrame) : nat := List.length df.

(** Line 159, [filtered_df['Sales'].mean()]: the sum over the count;
    [None] stands for the NaN pandas returns on an empty column. *)
Definition avg_order_value (df : DataFrame) : option Q :=
  match df with
  | [] => None
  | _ :: _ => Some (Qsum (map sales df) / inject_Z (Z.of_nat (List.length df)))%Q
  end.

(* ================================================================== *)
(** ** Two concrete implementations of the interfaces                 *)
(* ================================================================== *)

(** A scripted random source, as a test would inject it: the state is a
    tape of raw numbers read modulo 1000, and an exhausted tape reads 500.
    [randint] reduces the raw number into the interval, [uniform] and
    [normal] scale it. *)
Definition stub_pop (g : list Z) : Z * list Z :=
  match g with
  | [] => (500, [])
  | x :: g' => (x mod 1000, g')
  end.

Definition stub_randint (lo hi : Z) (g : list Z) : Z * list Z :=
  (lo + fst (stub_pop g) mod (hi - lo), snd (stub_pop g)).

Definition stub_normal (loc scale : Q) (g : list Z) : Q * list Z :=
  ((loc + scale * ((fst (stub_pop g) - 500) # 100))%Q, snd (stub_pop g)).

Definition stub_uniform (lo hi : Q) (g : list Z) : Q * list Z :=
  ((lo + (hi - lo) * (fst (stub_pop g) # 1000))%Q, snd (stub_pop g)).

(** The tape a seed installs: the seed itself, then six fixed numbers. *)
Definition stub_seed (s : Z) : list Z := [s; 2; 0; 0; 200; 0; 0].

(** Insertion sort on positions.  Position [i] goes in front of the first
    later position [j] with [before v_i v_j]. *)
Fixpoint insert_by (before : Q -> Q -> bool) (v : list Q) (i : nat)
  (l : list nat) : list nat :=
  match l with
  | [] => [i]
  | j :: l' =>
      if before (nth i v 0%Q) (nth j v 0%Q) then i :: l
      else j :: insert_by before v i l'
  end.

Definition argsort_by (before : Q -> Q -> bool) (v : list Q) : list nat :=
  fold_right (insert_by before v) [] (seq 0 (List.length v)).

(** With [<=] as the test, equal values keep their order: a stable sort
    (what [kind='stable'] gives, and what numpy's [quicksort] does on the
    short arrays it sorts by insertion). *)
Definition insertion_argsort : list Q -> list nat := argsort_by Qle_bool.

Definition Qlt_bool (a b : Q) : bool := negb (Qle_bool b a).

(** With [<] as the test, a position moves behind the later positions of
    equal value: still a sort, but equal values come out in reverse. *)
Definition shifting_argsort : list Q -> list nat := argsort_by Qlt_bool.

(* ================================================================== *)
(** ** The vocabulary of the properties                               *)
(* ================================================================== *)

(** A timestamp inside the calendar range of the generator. *)
Definition in_date_range (d : Timestamp) : Prop :=
  ts_leb first_day d = true /\ ts_leb d last_day = true.

(** The sub-category is one of the three listed for the category. *)
Definition sub_category_matches (cat sub : string) : Prop :=
  exists subs, dict_get cat subcategories = Some subs
               /\ List.length subs = 3%nat /\ In sub subs.

(** Line 62 and line 70: the profit is a factor of the normal draw, the
    stored sales is that draw clamped from below. *)
Definition profit_of_draw (sales_col profit_col : Q) : Prop :=
  exists draw factor : Q,
    (1 # 10 <= factor)%Q /\ (factor <= 3 # 10)%Q
    /\ profit_col = (draw * factor)%Q /\ sales_col = py_max draw 50.

Definition row_ok (r : Row) : Prop :=
  in_date_range (row_date r)
  /\ sub_category_matches (row_category r) (row_sub_category r)
  /\ In (row_region r) regions
  /\ (50 <= row_sales r)%Q
  /\ 1 <= row_quantity r <= 9
  /\ profit_of_draw (row_sales r) (row_profit r).

(** The domain-integrity invariant of an order record. *)
Definition order_ok (o : Order) : Prop :=
  sub_category_matches (category o) (sub_category o)
  /\ (50 <= sales o)%Q
  /\ 1 <= quantity o <= 9
  /\ in_date_range (order_date o).

(** The first row the generator returns under the scripted source: the
    normal draw is 300 + 90 * (-3) = 30, the factor is 0.1. *)
Definition stub_first_order : Order :=
  {| order_date := mkTimestamp 2021 2 12;
     category := "Office Supplies";
     sub_category := "Paper";
     region := "Central";
     sales := 50;
     profit := ((300 + 300 * (3 # 10) * (-300 # 100))
                * ((1 # 10) + ((3 # 10) - (1 # 10)) * (0 # 1000)))%Q;
     quantity := 1;
     year := 2021;
     month := 2;
     year_month := (2021, 2) |}.

(** A frame row with the given date, labels and sales; the profit and the
    quantity play no part in the aggregations. *)
Definition example_order (d : Timestamp) (cat sub reg : string) (s : Q) : Order :=
  annotate {| row_date := d; row_category := cat; row_sub_category := sub;
              row_region := reg; row_sales := s;
              row_profit := (s * (2 # 10))%Q; row_quantity := 1 |}.

Definition scenario : DataFrame :=
  [ example_order (mkTimestamp 2021 1 1) "Technology" "Phones" "East" 100;
    example_order (mkTimestamp 2021 1 1) "Technology" "Computers" "West" 200;
    example_order (mkTimestamp 2021 2 1) "Furniture" "Chairs" "East" 50;
    example_order (mkTimestamp 2021 2 1) "Furniture" "Chairs" "East" 150 ].

(** The scenario filtered to the region East. *)
Definition scenario_east : DataFrame :=
  filter_df [2021] ["Technology"; "Furniture"] ["East"] scenario.

(** Two rows with equal sales, in either order. *)
Definition computers_first : DataFrame :=
  [ example_order (mkTimestamp 2021 1 1) "Technology" "Computers" "West" 200;
    example_order (mkTimestamp 2021 2 1) "Furniture" "Chairs" "East" 200 ].

Definition chairs_first : DataFrame :=
  [ example_order (mkTimestamp 2021 2 1) "Furniture" "Chairs" "East" 200;
    example_order (mkTimestamp 2021 1 1) "Technology" "Computers" "West" 200 ].

(** Chronological order of monthly periods. *)
Definition period_before (p q : Period) : Prop :=
  fst p < fst q \/ (fst p = fst q /\ snd p < snd q).

(** The order of the rows of [monthly_sales]: by period, then by category
    name. *)
Definition monthly_row_before (a b : (Period * string) * Q) : Prop :=
  period_before (fst (fst a)) (fst (fst b))
  \/ (fst (fst a) = fst (fst b)
      /\ String_as_OT.lt (snd (fst a)) (snd (fst b))).

Definition month_and_category (o : Order) : Period * string :=
  (year_month o, category o).

Definition region_seen (df : DataFrame) (r : string) : bool :=
  existsb (fun o => String.eqb (region o) r) df.

Definition category_seen (df : DataFrame) (c : string) : bool :=
  existsb (fun o => String.eqb (category o) c) df.

(** The rows of a frame carrying a region label and a category label. *)
Definition cell_rows (df : DataFrame) (r c : string) : DataFrame :=
  filter (fun o => String.eqb (region o) r && String.eqb (category o) c) df.

(** The density the specification asks of the matrix of a filtered view: a
    cell for every (region, category) pair of the base frame. *)
Definition dense_over_base (base view : DataFrame) : Prop :=
  forall o, In o base ->
    exists v, matrix_get (heatmap_data view) (region o) (category o) = Some v.

(** The matrix the specification asks for on empty input: a zero cell for
    every known region and category. *)
Definition all_known_cells_zero (m : list (string * list (string * Q))) : Prop :=
  forall r c, In r regions -> In c categories ->
    exists v, matrix_get m r c = Some v /\ (v == 0)%Q.

(** The order of the rows of [top_subcats] under a stable sort: by
    descending total, equal totals by ascending sub-category name. *)
Definition top_row_before (a b : string * Q) : Prop :=
  (snd b < snd a)%Q
  \/ ((snd a == snd b)%Q /\ String_as_OT.lt (fst a) (fst b)).

(** The position of the first row of the frame with a sub-category. *)
Fixpoint first_seen (k : string) (df : DataFrame) : nat :=
  match df with
  | [] => O
  | o :: df' => if String.eqb (sub_category o) k then O else S (first_seen k df')
  end.

(** Equal totals in the order in which the rows of the frame first show
    their sub-categories. *)
Definition ties_in_encounter_order (df : DataFrame) (out : list (string * Q))
  : Prop :=
  forall i j a b,
    (i < j)%nat -> nth_error out i = Some a -> nth_error out j = Some b ->
    (snd a == snd b)%Q ->
    (first_seen (fst a) df < first_seen (fst b) df)%nat.

(** Ascending by value, equal values by ascending position. *)
Definition stable_asc (v : list Q) (i j : nat) : Prop :=
  (nth i v 0 < nth j v 0)%Q \/ ((nth i v 0 == nth j v 0)%Q /\ (i < j)%nat).

(** Descending by value, equal values by ascending position. *)
Definition stable_desc (v : list Q) (i j : nat) : Prop :=
  (nth j v 0 < nth i v 0)%Q \/ ((nth i v 0 == nth j v 0)%Q /\ (i < j)%nat).

(** No chart at all. *)
Definition no_charts : Charts := mkCharts None None None None.

(** The category whose list in a dictionary holds a sub-category. *)
Fixpoint category_of (sub : string) (d : list (string * list string))
  : option string :=
  match d with
  | [] => None
  | (c, subs) :: d' =>
      if existsb (String.eqb sub) subs then Some c else category_of sub d'
  end.

(** The 36 monthly periods of the calendar range of the generator. *)
Definition generator_periods : list Period :=
  list_prod [2021; 2022; 2023] [1; 2; 3; 4; 5; 6; 7; 8; 9; 10; 11; 12].

(** The order of the rows handed to the line plot: by the text of the
    period, then by category name. *)
Definition label_row_before (a b : string * string * Q) : Prop :=
  String_as_OT.lt (fst (fst a)) (fst (fst b))
  \/ (fst (fst a) = fst (fst b)
      /\ String_as_OT.lt (snd (fst a)) (snd (fst b))).

(** What a generated row carries besides the domain-integrity invariant:
    labels from the fixed lists and derived columns that agree with the
    order date. *)
Definition order_labelled (o : Order) : Prop :=
  In (order_date o) dates
  /\ In (category o) categories
  /\ In (region o) regions
  /\ year o = ts_year (order_date o)
  /\ month o = ts_month (order_date o)
  /\ year_month o = (year o, month o).

(* ================================================================== *)
(** ** Facts about the generator                                      *)
(* ================================================================== *)

Section GeneratorFacts.
Context {RS : RandomState}.

(** [m] returns from every state, with a result satisfying [P]. *)
Definition yields {A} (m : M A) (P : A -> Prop) : Prop :=
  forall g, exists a g', m g = Some (a, g') /\ P a.

Lemma yields_ret {A} (a : A) (P : A -> Prop) : P a -> yields (ret a) P.
Proof. intros Ha g. exists a, g. split; [reflexivity | exact Ha]. Qed.

Lemma yields_bind {A B} (m : M A) (k : A -> M B) (P : A -> Prop) (Q : B -> Prop) :
  yields m P -> (forall a, P a -> yields (k a) Q) -> yields (bind m k) Q.
Proof.
  intros Hm Hk g. destruct (Hm g) as (a & g' & Em & Pa).
  destruct (Hk a Pa g') as (b & g'' & Ek & Qb).
  exists b, g''. unfold bind. rewrite Em. split; assumption.
Qed.

Lemma yields_of_option {A} (o : option A) (a : A) (P : A -> Prop) :
  o = Some a -> P a -> yields (of_option o) P.
Proof. intros -> Ha. now apply yields_ret. Qed.

Lemma yields_randint lo hi :
  lo < hi -> yields (lift (randint lo hi)) (fun x => lo <= x < hi).
Proof.
  intros Hlt g. exists (fst (randint lo hi g)), (snd (randint lo hi g)).
  split; [unfold lift; now destruct (randint lo hi g) | now apply randint_range].
Qed.

Lemma yields_uniform lo hi :
  (lo <= hi)%Q ->
  yields (lift (uniform lo hi)) (fun x => (lo <= x)%Q /\ (x <= hi)%Q).
Proof.
  intros Hle g. exists (fst (uniform lo hi g)), (snd (uniform lo hi g)).
  split; [unfold lift; now destruct (uniform lo hi g) | now apply uniform_range].
Qed.

Lemma yields_normal loc scale : yields (lift (normal loc scale)) (fun _ => True).
Proof.
  intros g. exists (fst (normal loc scale g)), (snd (normal loc scale g)).
  split; [unfold lift; now destruct (normal loc scale g) | exact I].
Qed.

Lemma yields_choice {A} (l : list A) :
  l <> [] -> yields (choice l) (fun x => In x l).
Proof.
  intros Hne. destruct l as [|a l']; [contradiction|].
  unfold choice. set (l := a :: l').
  apply yields_bind with (P := fun i => 0 <= i < Z.of_nat (List.length l)).
  - apply yields_randint. subst l. simpl List.length. lia.
  - intros i Hi.
    destruct (nth_error l (Z.to_nat i)) as [x|] eqn:E.
    + apply yields_of_option with (a := x); [reflexivity|].
      eapply nth_error_In; eassumption.
    + apply nth_error_None in E. lia.
Qed.

End GeneratorFacts.

Lemma dates_length : List.length dates = 1095%nat.
Proof. vm_compute. reflexivity. Qed.

Lemma dates_in_range d : In d dates -> in_date_range d.
Proof.
  assert (E : forallb (fun d => ts_leb first_day d && ts_leb d last_day) dates = true)
    by (vm_compute; reflexivity).
  intros Hd. rewrite forallb_forall in E. specialize (E d Hd).
  apply andb_true_iff in E. exact E.
Qed.

Lemma categories_tables cat :
  In cat categories ->
  exists subs base,
    dict_get cat subcategories = Some subs /\ List.length subs = 3%nat
    /\ dict_get cat base_sales_table = Some base.
Proof.
  intros [<- | [<- | [<- | []]]]; do 2 eexists; repeat split; reflexivity.
Qed.

Lemma py_max_floor x : (50 <= py_max x 50)%Q.
Proof.
  unfold py_max. destruct (Qle_bool 50 x) eqn:E.
  - now apply Qle_bool_iff.
  - apply Qle_refl.
Qed.

Section GeneratorRun.
Context {RS : RandomState}.

Lemma draw_row_ok : yields draw_row row_ok.
Proof.
  unfold draw_row.
  apply yields_bind with (P := fun d => In d dates).
  { apply yields_choice. intros E. pose proof dates_length as L.
    rewrite E in L. discriminate L. }
  intros date Hdate.
  apply yields_bind with (P := fun c => In c categories).
  { apply yields_choice. discriminate. }
  intros cat Hcat.
  destruct (categories_tables cat Hcat) as (subs & base & Esubs & Lsubs & Ebase).
  apply yields_bind with (P := fun s => s = subs).
  { now apply yields_of_option with (a := subs). }
  intros ? ->.
  apply yields_bind with (P := fun s => In s subs).
  { apply yields_choice. intros E. rewrite E in Lsubs. discriminate Lsubs. }
  intros sub Hsub.
  apply yields_bind with (P := fun r => In r regions).
  { apply yields_choice. discriminate. }
  intros reg Hreg.
  apply yields_bind with (P := fun b => b = base).
  { now apply yields_of_option with (a := base). }
  intros ? ->.
  apply yields_bind with (P := fun _ => True).
  { apply yields_normal. }
  intros draw _.
  apply yields_bind with (P := fun f => (1 # 10 <= f)%Q /\ (f <= 3 # 10)%Q).
  { apply yields_uniform. discriminate. }
  intros factor [Hlo Hhi].
  apply yields_bind with (P := fun q => 1 <= q < 10).
  { apply yields_randint. lia. }
  intros q Hq.
  apply yields_ret. unfold row_ok. simpl.
  repeat split.
  - apply (dates_in_range date Hdate).
  - apply (dates_in_range date Hdate).
  - exists subs. repeat split; assumption.
  - exact Hreg.
  - apply py_max_floor.
  - lia.
  - lia.
  - exists draw, factor. repeat split; assumption.
Qed.

Lemma for_range_ok (P : Row -> Prop) :
  yields draw_row P ->
  forall n data,
    Forall P data ->
    yields (for_range n data)
           (fun d => Forall P d /\ List.length d = (List.length data + n)%nat).
Proof.
  intros Hrow. induction n as [|n IH]; intros data Hdata; simpl for_range.
  - apply yields_ret. split; [assumption | lia].
  - apply yields_bind with (P := P); [exact Hrow|].
    intros r Hr g.
    destruct (IH (data ++ [r])) with (g := g) as (d & g' & E & Hd & Hlen).
    { apply Forall_app. split; [assumption | now constructor]. }
    exists d, g'. split; [exact E|]. split; [exact Hd|].
    rewrite Hlen, length_app. simpl. lia.
Qed.

Lemma annotate_ok r : row_ok r -> order_ok (annotate r).
Proof.
  intros (Hd & Hs & _ & Hsales & Hq & _). unfold order_ok. simpl. tauto.
Qed.

(** The generator returns from every state, with 5000 rows that all come
    from valid draws. *)
Lemma generate_ok (s : Z) :
  yields (generate s)
         (fun df => List.length df = 5000%nat
                    /\ Forall (fun o => order_ok o
                                        /\ profit_of_draw (sales o) (profit o)) df).
Proof.
  unfold generate.
  apply yields_bind with (P := fun _ => True).
  { intros g. exists tt, (seed s). split; [reflexivity | exact I]. }
  intros _ _.
  apply yields_bind
    with (P := fun d => Forall row_ok d /\ List.length d = (0 + 5000)%nat).
  { apply (for_range_ok row_ok draw_row_ok 5000 []). constructor. }
  intros data [Hdata Hlen].
  apply yields_ret. split.
  - rewrite length_map. exact Hlen.
  - apply Forall_map. revert Hdata. apply Forall_impl.
    intros r Hr. split; [now apply annotate_ok|].
    destruct Hr as (_ & _ & _ & _ & _ & Hp). exact Hp.
Qed.

End GeneratorRun.

(* ================================================================== *)
(** ** The scripted source implements the interface                   *)
(* ================================================================== *)

Lemma stub_pop_bound g : 0 <= fst (stub_pop g) < 1000.
Proof.
  destruct g as [|x g']; simpl; [lia|]. apply Z.mod_pos_bound. lia.
Qed.

Lemma stub_randint_range lo hi g :
  lo < hi -> lo <= fst (stub_randint lo hi g) < hi.
Proof.
  intros Hlt. unfold stub_randint. simpl fst.
  pose proof (Z.mod_pos_bound (fst (stub_pop g)) (hi - lo)). lia.
Qed.

Lemma stub_uniform_range lo hi g :
  (lo <= hi)%Q -> (lo <= fst (stub_uniform lo hi g) <= hi)%Q.
Proof.
  intros Hle. unfold stub_uniform. simpl fst.
  pose proof (stub_pop_bound g) as Hx.
  set (t := (fst (stub_pop g) # 1000)%Q).
  assert (H0 : (0 <= t)%Q) by (unfold t, Qle; simpl; lia).
  assert (H1 : (t <= 1)%Q) by (unfold t, Qle; simpl; lia).
  split; nra.
Qed.

#[export] Instance stub_random_state : RandomState :=
  {| rng := list Z;
     seed := stub_seed;
     randint := stub_randint;
     normal := stub_normal;
     uniform := stub_uniform;
     randint_range := stub_randint_range;
     uniform_range := stub_uniform_range |}.

Lemma profit_of_draw_upper s p :
  profit_of_draw s p -> (p <= (3 # 10) * s)%Q.
Proof.
  intros (draw & factor & Hlo & Hhi & -> & ->).
  unfold py_max. destruct (Qle_bool 50 draw) eqn:E.
  - apply Qle_bool_iff in E. nra.
  - assert (Hlt : (draw < 50)%Q).
    { apply Qnot_le_lt. intros H. apply Qle_bool_iff in H. congruence. }
    destruct (Qlt_le_dec draw 0) as [Hneg | Hpos]; nra.
Qed.

(** Above the floor the stored sales is the draw itself, and the lower
    bound holds as well. *)
Lemma profit_of_draw_lower_above_floor s p :
  profit_of_draw s p -> (50 < s)%Q -> ((1 # 10) * s <= p)%Q.
Proof.
  intros (draw & factor & Hlo & Hhi & -> & ->). unfold py_max.
  destruct (Qle_bool 50 draw) eqn:E; intros Hs.
  - apply Qle_bool_iff in E. nra.
  - exfalso. apply (Qlt_irrefl 50). exact Hs.
Qed.

Lemma stub_first_order_generated :
  exists df g',
    load_sample_data (RS := stub_random_state) [] = Some (df, g')
    /\ In stub_first_order df.
Proof.
  assert (E : option_map (fun p => hd_error (fst p))
                (load_sample_data (RS := stub_random_state) [])
              = Some (Some stub_first_order)).
  { vm_compute. reflexivity. }
  destruct (load_sample_data (RS := stub_random_state) []) as [[df g']|];
    [|discriminate E].
  exists df, g'. split; [reflexivity|].
  simpl in E. destruct df as [|o df']; [discriminate E|].
  simpl in E. left. congruence.
Qed.

Lemma stub_first_order_below_tenth :
  (sales stub_first_order == 50)%Q
  /\ (profit stub_first_order == 3)%Q
  /\ ~ ((1 # 10) * sales stub_first_order <= profit stub_first_order)%Q.
Proof.
  split; [reflexivity|]. split; [reflexivity|].
  intros H. vm_compute in H. apply H. reflexivity.
Qed.

(* ================================================================== *)
(** ** Facts about grouping                                           *)
(* ================================================================== *)

Section GroupByFacts.
Context {K : Type} `{Key K}.

(** The strict order of the keys, as a relation. *)
Definition key_lt (a b : K) : Prop := key_ltb a b = true.

Lemma insert_key_In k x l : In x (insert_key k l) <-> x = k \/ In x l.
Proof.
  induction l as [|k' l IH]; simpl.
  - intuition.
  - destruct (key_ltb k k') eqn:E1; simpl; [intuition|].
    destruct (key_ltb k' k) eqn:E2; simpl.
    + rewrite IH. intuition.
    + pose proof (key_ltb_total _ _ E1 E2). subst k'. intuition.
Qed.

Lemma insert_key_sorted k l :
  StronglySorted key_lt l -> StronglySorted key_lt (insert_key k l).
Proof.
  induction l as [|k' l IH]; simpl; intros Hs.
  - repeat constructor.
  - apply StronglySorted_inv in Hs. destruct Hs as [Hs Hall].
    destruct (key_ltb k k') eqn:E1.
    + constructor; [constructor; assumption|].
      constructor; [exact E1|].
      revert Hall. apply Forall_impl. intros a Ha.
      unfold key_lt in *. eapply key_ltb_trans; eassumption.
    + destruct (key_ltb k' k) eqn:E2.
      * constructor; [now apply IH|].
        apply Forall_forall. intros a Ha. apply insert_key_In in Ha.
        destruct Ha as [-> | Ha]; [exact E2|].
        rewrite Forall_forall in Hall. now apply Hall.
      * constructor; assumption.
Qed.

Lemma sorted_keys_In x l : In x (sorted_keys l) <-> In x l.
Proof.
  induction l as [|k l IH]; simpl; [tauto|].
  rewrite insert_key_In, IH. intuition.
Qed.

Lemma sorted_keys_sorted l : StronglySorted key_lt (sorted_keys l).
Proof.
  induction l as [|k l IH]; simpl; [constructor | now apply insert_key_sorted].
Qed.

Lemma key_lt_sorted_NoDup l : StronglySorted key_lt l -> NoDup l.
Proof.
  induction 1 as [|a l Hs IH Hall]; constructor; [|exact IH].
  intros Hin. rewrite Forall_forall in Hall. specialize (Hall a Hin).
  unfold key_lt in Hall. rewrite key_ltb_irrefl in Hall. discriminate.
Qed.

Lemma sorted_keys_NoDup l : NoDup (sorted_keys l).
Proof. apply key_lt_sorted_NoDup, sorted_keys_sorted. Qed.

Section Rows.
Context {R : Type} (key : R -> K) (val : R -> Q).

Lemma group_In k r df : In r (group key k df) <-> In r df /\ key r = k.
Proof. unfold group. rewrite filter_In, key_eqb_eq. tauto. Qed.

Lemma group_unobserved k df : ~ In k (map key df) -> group key k df = [].
Proof.
  intros Hk. induction df as [|r df IH]; simpl; [reflexivity|].
  destruct (key_eqb (key r) k) eqn:E.
  - apply key_eqb_eq in E. exfalso. apply Hk. left. exact E.
  - apply IH. intros Hin. apply Hk. right. exact Hin.
Qed.

Lemma groupby_sum_keys df :
  map fst (groupby_sum key val df) = sorted_keys (map key df).
Proof. unfold groupby_sum. rewrite map_map. simpl. apply map_id. Qed.

Lemma groupby_sum_In k v df :
  In (k, v) (groupby_sum key val df) <->
  In k (map key df) /\ v = Qsum (map val (group key k df)).
Proof.
  unfold groupby_sum. rewrite in_map_iff. split.
  - intros (k' & E & Hin). inversion E; subst.
    rewrite sorted_keys_In in Hin. split; [exact Hin | reflexivity].
  - intros [Hin ->]. exists k. split; [reflexivity|]. now apply sorted_keys_In.
Qed.

Lemma series_get_map (f : K -> Q) k l :
  series_get k (map (fun k' => (k', f k')) l)
  = if existsb (key_eqb k) l then Some (f k) else None.
Proof.
  induction l as [|k' l IH]; simpl; [reflexivity|].
  destruct (key_eqb k k') eqn:E; simpl; [|exact IH].
  apply key_eqb_eq in E. now subst.
Qed.

Lemma existsb_key_In k (l : list K) : existsb (key_eqb k) l = true <-> In k l.
Proof.
  rewrite existsb_exists. split.
  - intros (x & Hin & E). apply key_eqb_eq in E. now subst.
  - intros Hin. exists k. split; [exact Hin | apply key_eqb_refl].
Qed.

(** The sum of the group sums over a list of keys. *)
Definition groups_total (ks : list K) (df : list R) : Q :=
  Qsum (map (fun k => Qsum (map val (group key k df))) ks).

Lemma groups_total_nil ks : (groups_total ks [] == 0)%Q.
Proof.
  unfold groups_total. induction ks as [|k ks IH]; simpl; [reflexivity|].
  rewrite IH. ring.
Qed.

Lemma groups_total_skip r df ks :
  ~ In (key r) ks -> (groups_total ks (r :: df) == groups_total ks df)%Q.
Proof.
  unfold groups_total. induction ks as [|k ks IH]; simpl; intros Hk; [reflexivity|].
  destruct (key_eqb (key r) k) eqn:E.
  - apply key_eqb_eq in E. exfalso. apply Hk. left. now symmetry.
  - rewrite IH; [reflexivity|]. intros Hin. apply Hk. now right.
Qed.

Lemma groups_total_cons r df ks :
  NoDup ks -> In (key r) ks ->
  (groups_total ks (r :: df) == val r + groups_total ks df)%Q.
Proof.
  unfold groups_total. induction 1 as [|k ks Hk Hnd IH]; simpl; intros Hin.
  - contradiction.
  - destruct (key_eqb (key r) k) eqn:E.
    + apply key_eqb_eq in E. subst k. simpl.
      fold (groups_total ks (r :: df)). rewrite (groups_total_skip r df ks Hk).
      unfold groups_total. ring.
    + destruct Hin as [E' | Hin].
      * subst k. rewrite key_eqb_refl in E. discriminate.
      * rewrite (IH Hin). ring.
Qed.

Lemma groups_total_all ks df :
  NoDup ks -> (forall r, In r df -> In (key r) ks) ->
  (groups_total ks df == Qsum (map val df))%Q.
Proof.
  intros Hnd. induction df as [|r df IH]; intros Hcov.
  - apply groups_total_nil.
  - rewrite groups_total_cons; [|exact Hnd | apply Hcov; now left].
    simpl. rewrite IH; [reflexivity|]. intros r' Hr'. apply Hcov. now right.
Qed.

(** Grouping conserves the total. *)
Lemma groupby_sum_total df :
  (Qsum (map snd (groupby_sum key val df)) == Qsum (map val df))%Q.
Proof.
  unfold groupby_sum. rewrite map_map. simpl.
  apply (groups_total_all (sorted_keys (map key df)) df).
  - apply sorted_keys_NoDup.
  - intros r Hr. apply sorted_keys_In. now apply in_map.
Qed.

End Rows.
End GroupByFacts.

(* ================================================================== *)
(** ** Facts about sorted lists                                       *)
(* ================================================================== *)

Section SortedFacts.
Context {A : Type}.

Lemma map_nth_seq (l : list A) (d : A) :
  map (fun j => nth j l d) (seq 0 (List.length l)) = l.
Proof.
  induction l as [|x l IH]; simpl; [reflexivity|].
  rewrite <- seq_shift, map_map. simpl. now rewrite IH.
Qed.

Lemma StronglySorted_impl_in (R R' : A -> A -> Prop) (l : list A) :
  (forall a b, In a l -> In b l -> R a b -> R' a b) ->
  StronglySorted R l -> StronglySorted R' l.
Proof.
  intros Himp Hs. induction Hs as [|a l Hs IH Hall].
  - constructor.
  - constructor.
    + apply IH. intros x y Hx Hy. apply Himp; now right.
    + rewrite Forall_forall in *. intros x Hx.
      apply Himp; [now left | now right | now apply Hall].
Qed.

Lemma StronglySorted_map_iff {B} (f : A -> B) (R : B -> B -> Prop) (l : list A) :
  StronglySorted R (map f l) <-> StronglySorted (fun a b => R (f a) (f b)) l.
Proof.
  induction l as [|a l IH]; simpl.
  - split; constructor.
  - split; intros Hs; apply StronglySorted_inv in Hs; destruct Hs as [Hs Hall];
      constructor; try (now apply IH).
    + rewrite Forall_map in Hall. exact Hall.
    + rewrite Forall_map. exact Hall.
Qed.

Lemma StronglySorted_snoc (R : A -> A -> Prop) (l : list A) (x : A) :
  StronglySorted R l -> Forall (fun y => R y x) l -> StronglySorted R (l ++ [x]).
Proof.
  induction 1 as [|a l Hs IH Hall]; simpl; intros Hx.
  - repeat constructor.
  - inversion Hx as [|? ? Hax Hx']; subst.
    constructor; [now apply IH|].
    apply Forall_app. split; [exact Hall | now constructor].
Qed.

Lemma StronglySorted_rev (R : A -> A -> Prop) (l : list A) :
  StronglySorted R l -> StronglySorted (fun a b => R b a) (rev l).
Proof.
  induction 1 as [|a l Hs IH Hall]; simpl.
  - constructor.
  - apply StronglySorted_snoc; [exact IH|].
    apply Forall_rev. exact Hall.
Qed.

Lemma StronglySorted_app_inv (R : A -> A -> Prop) (l1 l2 : list A) :
  StronglySorted R (l1 ++ l2) ->
  StronglySorted R l1 /\ StronglySorted R l2
  /\ (forall x y, In x l1 -> In y l2 -> R x y).
Proof.
  induction l1 as [|a l1 IH]; simpl; intros Hs.
  - split; [constructor|]. split; [exact Hs|]. intros x y [].
  - apply StronglySorted_inv in Hs. destruct Hs as [Hs Hall].
    destruct (IH Hs) as (H1 & H2 & Hx). apply Forall_app in Hall.
    destruct Hall as [Hall1 Hall2].
    split; [now constructor|]. split; [exact H2|].
    intros x y [<- | Hin] Hy.
    + rewrite Forall_forall in Hall2. now apply Hall2.
    + now apply Hx.
Qed.

Lemma StronglySorted_firstn (R : A -> A -> Prop) (n : nat) (l : list A) :
  StronglySorted R l -> StronglySorted R (firstn n l).
Proof.
  intros Hs. rewrite <- (firstn_skipn n l) in Hs.
  now apply StronglySorted_app_inv in Hs.
Qed.

Lemma In_firstn (n : nat) (l : list A) (x : A) : In x (firstn n l) -> In x l.
Proof.
  intros Hin. rewrite <- (firstn_skipn n l). apply in_or_app. now left.
Qed.

Lemma NoDup_firstn_prefix (n : nat) (l : list A) : NoDup l -> NoDup (firstn n l).
Proof.
  intros Hnd. rewrite <- (firstn_skipn n l) in Hnd.
  now apply NoDup_app_remove_r in Hnd.
Qed.

(** In a list sorted by a relation, an earlier position is related to a
    later one. *)
Lemma StronglySorted_nth (R : A -> A -> Prop) (l : list A) (d : A) :
  StronglySorted R l ->
  forall p q, (p < q)%nat -> (q < List.length l)%nat -> R (nth p l d) (nth q l d).
Proof.
  induction 1 as [|a l Hs IH Hall]; intros p q Hpq Hq; simpl in Hq; [lia|].
  destruct q as [|q]; [lia|]. destruct p as [|p]; simpl.
  - rewrite Forall_forall in Hall. apply Hall. apply nth_In. lia.
  - apply IH; lia.
Qed.

End SortedFacts.

(* ================================================================== *)
(** ** Insertion sort implements the index-sort interface             *)
(* ================================================================== *)

Section InsertionSort.
Variable before : Q -> Q -> bool.
Hypothesis before_true : forall a b, before a b = true -> (a <= b)%Q.
Hypothesis before_false : forall a b, before a b = false -> (b <= a)%Q.
Variable v : list Q.

Let val_le (i j : nat) : Prop := (nth i v 0 <= nth j v 0)%Q.

Lemma insert_by_perm i l : Permutation (insert_by before v i l) (i :: l).
Proof.
  induction l as [|j l IH]; simpl; [reflexivity|].
  destruct (before _ _); [reflexivity|].
  rewrite IH. apply perm_swap.
Qed.

Lemma insert_by_sorted i l :
  StronglySorted val_le l -> StronglySorted val_le (insert_by before v i l).
Proof.
  induction l as [|j l IH]; simpl; intros Hs.
  - repeat constructor.
  - apply StronglySorted_inv in Hs. destruct Hs as [Hs Hall].
    destruct (before (nth i v 0%Q) (nth j v 0%Q)) eqn:E.
    + apply before_true in E.
      constructor; [now constructor|].
      constructor; [exact E|].
      revert Hall. apply Forall_impl. intros k Hk.
      unfold val_le in *. eapply Qle_trans; eassumption.
    + apply before_false in E.
      constructor; [now apply IH|].
      apply Forall_forall. intros k Hk.
      apply (Permutation_in _ (insert_by_perm i l)) in Hk.
      destruct Hk as [<- | Hk]; [exact E|].
      rewrite Forall_forall in Hall. now apply Hall.
Qed.

Lemma argsort_by_perm : Permutation (argsort_by before v) (seq 0 (List.length v)).
Proof.
  unfold argsort_by. induction (seq 0 (List.length v)) as [|i l IH]; simpl.
  - constructor.
  - rewrite insert_by_perm. now constructor.
Qed.

Lemma argsort_by_sorted :
  StronglySorted Qle (map (fun i => nth i v 0%Q) (argsort_by before v)).
Proof.
  apply StronglySorted_map_iff. fold val_le.
  unfold argsort_by. induction (seq 0 (List.length v)) as [|i l IH]; simpl.
  - constructor.
  - now apply insert_by_sorted.
Qed.

End InsertionSort.

Lemma Qlt_bool_true a b : Qlt_bool a b = true -> (a <= b)%Q.
Proof.
  unfold Qlt_bool. intros E. apply negb_true_iff in E.
  apply Qlt_le_weak, Qnot_le_lt. intros H. apply Qle_bool_iff in H. congruence.
Qed.

Lemma Qlt_bool_false a b : Qlt_bool a b = false -> (b <= a)%Q.
Proof.
  unfold Qlt_bool. intros E. apply negb_false_iff in E. now apply Qle_bool_iff.
Qed.

Lemma Qle_bool_true a b : Qle_bool a b = true -> (a <= b)%Q.
Proof. apply Qle_bool_iff. Qed.

Lemma Qle_bool_false a b : Qle_bool a b = false -> (b <= a)%Q.
Proof.
  intros E. apply Qlt_le_weak, Qnot_le_lt. intros H.
  apply Qle_bool_iff in H. congruence.
Qed.

#[export] Instance insertion_sort : ArgSort :=
  {| argsort := insertion_argsort;
     argsort_perm := argsort_by_perm Qle_bool;
     argsort_sorted := argsort_by_sorted Qle_bool Qle_bool_true Qle_bool_false |}.

Definition shifting_sort : ArgSort :=
  {| argsort := shifting_argsort;
     argsort_perm := argsort_by_perm Qlt_bool;
     argsort_sorted := argsort_by_sorted Qlt_bool Qlt_bool_true Qlt_bool_false |}.

(* ================================================================== *)
(** ** Facts about the pivot                                          *)
(* ================================================================== *)

Lemma key_eqb_sym {K} `{Key K} (a b : K) : key_eqb a b = key_eqb b a.
Proof. unfold key_eqb. apply andb_comm. Qed.

Lemma string_key_eqb (a b : string) : key_eqb a b = String.eqb a b.
Proof. apply eq_true_iff_eq. now rewrite key_eqb_eq, String.eqb_eq. Qed.

Section UnstackFacts.
Context {A B : Type} `{Key A} `{Key B}.

Lemma find_row (f : A -> list (B * Q)) r l :
  find (fun row => key_eqb (fst row) r) (map (fun r' => (r', f r')) l)
  = if existsb (key_eqb r) l then Some (r, f r) else None.
Proof.
  induction l as [|r' l IH]; simpl; [reflexivity|].
  rewrite (key_eqb_sym r r'). destruct (key_eqb r' r) eqn:E; simpl; [|exact IH].
  apply key_eqb_eq in E. now subst.
Qed.

Lemma pair_test_eq (k : A * B) r c :
  key_eqb (fst k) r && key_eqb (snd k) c = key_eqb k (r, c).
Proof.
  apply eq_true_iff_eq. rewrite andb_true_iff, !key_eqb_eq.
  destruct k as [a b]. simpl. split.
  - intros [-> ->]. reflexivity.
  - intros E. inversion E. split; reflexivity.
Qed.

Lemma find_entry (f : A * B -> Q) r c ks :
  find (fun e => key_eqb (fst (fst e)) r && key_eqb (snd (fst e)) c)
       (map (fun k => (k, f k)) ks)
  = if existsb (key_eqb (r, c)) ks then Some ((r, c), f (r, c)) else None.
Proof.
  induction ks as [|k ks IH]; simpl; [reflexivity|].
  rewrite pair_test_eq, (key_eqb_sym (r, c) k).
  destruct (key_eqb k (r, c)) eqn:E; simpl; [|exact IH].
  apply key_eqb_eq in E. now subst.
Qed.

Lemma matrix_get_unstack fill (s : list ((A * B) * Q)) r c :
  matrix_get (unstack fill s) r c
  = if existsb (key_eqb r) (sorted_keys (map (fun e => fst (fst e)) s))
       && existsb (key_eqb c) (sorted_keys (map (fun e => snd (fst e)) s))
    then Some (match find (fun e => key_eqb (fst (fst e)) r
                                    && key_eqb (snd (fst e)) c) s with
               | Some e => snd e
               | None => fill
               end)
    else None.
Proof.
  unfold matrix_get, unstack. rewrite find_row.
  destruct (existsb (key_eqb r) _); simpl; [|reflexivity].
  rewrite (series_get_map
             (fun c' => match find (fun e => key_eqb (fst (fst e)) r
                                             && key_eqb (snd (fst e)) c') s with
                        | Some e => snd e
                        | None => fill
                        end)).
  reflexivity.
Qed.

Section Grouped.
Context {R : Type} (kr : R -> A) (kc : R -> B) (val : R -> Q).

Let key (o : R) : A * B := (kr o, kc o).

Lemma grouped_rows_seen r df :
  existsb (key_eqb r)
          (sorted_keys (map (fun e => fst (fst e)) (groupby_sum key val df)))
  = existsb (fun o => key_eqb (kr o) r) df.
Proof.
  apply eq_true_iff_eq. rewrite existsb_key_In, sorted_keys_In.
  rewrite <- (map_map fst fst), groupby_sum_keys, in_map_iff, existsb_exists.
  split.
  - intros (k & E & Hk). apply sorted_keys_In, in_map_iff in Hk.
    destruct Hk as (o & <- & Ho). exists o. split; [exact Ho|].
    apply key_eqb_eq. exact E.
  - intros (o & Ho & E). apply key_eqb_eq in E. exists (key o).
    split; [exact E|]. apply sorted_keys_In. now apply in_map.
Qed.

Lemma grouped_cols_seen c df :
  existsb (key_eqb c)
          (sorted_keys (map (fun e => snd (fst e)) (groupby_sum key val df)))
  = existsb (fun o => key_eqb (kc o) c) df.
Proof.
  apply eq_true_iff_eq. rewrite existsb_key_In, sorted_keys_In.
  rewrite <- (map_map fst snd), groupby_sum_keys, in_map_iff, existsb_exists.
  split.
  - intros (k & E & Hk). apply sorted_keys_In, in_map_iff in Hk.
    destruct Hk as (o & <- & Ho). exists o. split; [exact Ho|].
    apply key_eqb_eq. exact E.
  - intros (o & Ho & E). apply key_eqb_eq in E. exists (key o).
    split; [exact E|]. apply sorted_keys_In. now apply in_map.
Qed.

(** A cell of the pivoted grouped sums is the sum over the rows carrying
    both labels; with [fill_value=0] that also holds for the filled cells,
    whose group is empty. *)
Lemma grouped_cell r c df :
  match find (fun e => key_eqb (fst (fst e)) r && key_eqb (snd (fst e)) c)
             (groupby_sum key val df) with
  | Some e => snd e
  | None => 0%Q
  end = Qsum (map val (group key (r, c) df)).
Proof.
  unfold groupby_sum.
  rewrite (find_entry (fun k => Qsum (map val (group key k df)))).
  destruct (existsb (key_eqb (r, c)) (sorted_keys (map key df))) eqn:E;
    [reflexivity|].
  rewrite group_unobserved; [reflexivity|].
  intros Hin. apply sorted_keys_In, existsb_key_In in Hin. congruence.
Qed.

End Grouped.
End UnstackFacts.

Lemma pair_ltb_spec {A B} `{Key A} `{Key B} (x y : A * B) :
  key_ltb x y = true ->
  key_ltb (fst x) (fst y) = true
  \/ (fst x = fst y /\ key_ltb (snd x) (snd y) = true).
Proof.
  change (key_ltb x y) with (pair_ltb x y). unfold pair_ltb.
  destruct (key_ltb (fst x) (fst y)) eqn:E1; simpl; [now left|].
  intros E. apply andb_true_iff in E. destruct E as [E2 E3].
  apply negb_true_iff in E2. right. split; [|exact E3].
  now apply key_ltb_total.
Qed.

Lemma monthly_key_lt (a b : Period * string) :
  key_lt a b ->
  period_before (fst a) (fst b)
  \/ (fst a = fst b /\ String_as_OT.lt (snd a) (snd b)).
Proof.
  intros Hlt. apply pair_ltb_spec in Hlt. destruct Hlt as [Hp | [E Hs]].
  - left. apply pair_ltb_spec in Hp. unfold period_before.
    destruct Hp as [Hy | [Ey Hm]].
    + left. now apply Z.ltb_lt.
    + right. split; [exact Ey | now apply Z.ltb_lt].
  - right. split; [exact E | now apply string_ltb_lt].
Qed.

Lemma existsb_pointwise {A} (f g : A -> bool) (l : list A) :
  (forall x, f x = g x) -> existsb f l = existsb g l.
Proof.
  intros E. induction l as [|x l IH]; simpl; [reflexivity|]. now rewrite E, IH.
Qed.

Lemma group_region_category df r c :
  group (fun o => (region o, category o)) (r, c) df = cell_rows df r c.
Proof.
  unfold group, cell_rows. apply filter_ext. intros o.
  rewrite <- (pair_test_eq (region o, category o) r c). simpl.
  now rewrite !string_key_eqb.
Qed.

(* ================================================================== *)
(** ** Facts about the descending sort                                *)
(* ================================================================== *)

Lemma rev_seq_nth n j : (j < n)%nat -> nth j (rev (seq 0 n)) 0%nat = (n - S j)%nat.
Proof.
  intros Hj. rewrite rev_nth by (rewrite length_seq; exact Hj).
  rewrite length_seq, seq_nth by lia. reflexivity.
Qed.

Lemma map_rev_seq n :
  map (fun j => nth j (rev (seq 0 n)) 0%nat) (seq 0 n) = rev (seq 0 n).
Proof.
  pose proof (map_nth_seq (rev (seq 0 n)) 0%nat) as E.
  rewrite length_rev, length_seq in E. exact E.
Qed.

Section SortValuesFacts.
Context {AS : ArgSort}.

Lemma argsort_bound v j : In j (argsort v) -> (j < List.length v)%nat.
Proof.
  intros Hj. apply (Permutation_in _ (argsort_perm v)) in Hj.
  apply in_seq in Hj. lia.
Qed.

Lemma nargsort_desc_perm v :
  Permutation (nargsort_desc v) (seq 0 (List.length v)).
Proof.
  unfold nargsort_desc. rewrite <- Permutation_rev.
  rewrite (Permutation_map _ (argsort_perm (rev v))).
  rewrite length_rev, map_rev_seq. symmetry. apply Permutation_rev.
Qed.

Lemma nargsort_desc_bound v i : In i (nargsort_desc v) -> (i < List.length v)%nat.
Proof.
  intros Hi. apply (Permutation_in _ (nargsort_desc_perm v)) in Hi.
  apply in_seq in Hi. lia.
Qed.

Lemma nargsort_desc_values v :
  map (fun i => nth i v 0%Q) (nargsort_desc v)
  = rev (map (fun j => nth j (rev v) 0%Q) (argsort (rev v))).
Proof.
  unfold nargsort_desc. rewrite map_rev, map_map. f_equal.
  apply map_ext_in. intros j Hj. apply argsort_bound in Hj.
  rewrite length_rev in Hj.
  rewrite rev_seq_nth by exact Hj. now rewrite rev_nth by exact Hj.
Qed.

Lemma nargsort_desc_sorted v :
  StronglySorted (fun a b => (b <= a)%Q)
                 (map (fun i => nth i v 0%Q) (nargsort_desc v)).
Proof.
  rewrite nargsort_desc_values.
  apply (StronglySorted_rev Qle). apply argsort_sorted.
Qed.

Section Series.
Context {K : Type}.

Lemma sort_values_desc_perm (s : list (K * Q)) :
  Permutation (sort_values_desc s) s.
Proof.
  destruct s as [|d s']; [constructor|].
  unfold sort_values_desc. set (s := d :: s').
  rewrite (Permutation_map _ (nargsort_desc_perm (map snd s))).
  rewrite length_map, map_nth_seq. reflexivity.
Qed.

Lemma sort_values_desc_values (s : list (K * Q)) :
  map snd (sort_values_desc s)
  = map (fun i => nth i (map snd s) 0%Q) (nargsort_desc (map snd s)).
Proof.
  destruct s as [|d s'].
  { simpl. pose proof (nargsort_desc_perm []) as P. simpl in P.
    apply Permutation_sym, Permutation_nil in P. now rewrite P. }
  unfold sort_values_desc. set (s := d :: s').
  rewrite map_map. apply map_ext_in. intros i Hi.
  apply nargsort_desc_bound in Hi.
  rewrite (nth_indep _ 0%Q (snd d)) by exact Hi. symmetry. apply map_nth.
Qed.

Lemma sort_values_desc_sorted (s : list (K * Q)) :
  StronglySorted (fun a b => (snd b <= snd a)%Q) (sort_values_desc s).
Proof.
  apply (StronglySorted_map_iff snd (fun x y => (y <= x)%Q)).
  rewrite sort_values_desc_values. apply nargsort_desc_sorted.
Qed.

End Series.
End SortValuesFacts.

(* ================================================================== *)
(** ** The stable index sort keeps equal values in position order     *)
(* ================================================================== *)

Lemma fold_insert_perm before v l :
  Permutation (fold_right (insert_by before v) [] l) l.
Proof.
  induction l as [|i l IH]; simpl; [constructor|].
  rewrite insert_by_perm. now constructor.
Qed.

Lemma insert_by_stable v i l :
  Forall (fun x => (i < x)%nat) l ->
  StronglySorted (stable_asc v) l ->
  StronglySorted (stable_asc v) (insert_by Qle_bool v i l).
Proof.
  induction l as [|j l IH]; simpl; intros Hgt Hs.
  - repeat constructor.
  - apply StronglySorted_inv in Hs. destruct Hs as [Hs Hall].
    inversion Hgt as [|? ? Hij Hgt']; subst.
    destruct (Qle_bool (nth i v 0%Q) (nth j v 0%Q)) eqn:E.
    + apply Qle_bool_true in E.
      assert (Hvj : stable_asc v i j).
      { unfold stable_asc. destruct (Qle_lt_or_eq _ _ E) as [Hlt | Heq];
          [now left | right; split; assumption]. }
      constructor; [now constructor|].
      constructor; [exact Hvj|].
      rewrite Forall_forall in *. intros x Hx.
      specialize (Hall x Hx). specialize (Hgt' x Hx).
      unfold stable_asc in *.
      assert (Hle : (nth i v 0 <= nth x v 0)%Q).
      { destruct Hall as [Hl | [He _]].
        - apply Qlt_le_weak. eapply Qle_lt_trans; eassumption.
        - rewrite <- He. exact E. }
      destruct (Qle_lt_or_eq _ _ Hle) as [Hlt | Heq];
        [now left | right; split; assumption].
    + assert (Hlt : (nth j v 0 < nth i v 0)%Q).
      { apply Qnot_le_lt. intros H. apply Qle_bool_iff in H. congruence. }
      constructor; [now apply IH|].
      apply Forall_forall. intros x Hx.
      apply (Permutation_in _ (insert_by_perm Qle_bool v i l)) in Hx.
      destruct Hx as [<- | Hx]; [now left|].
      rewrite Forall_forall in Hall. now apply Hall.
Qed.

Lemma fold_insert_stable v m a :
  StronglySorted (stable_asc v)
                 (fold_right (insert_by Qle_bool v) [] (seq a m)).
Proof.
  revert a. induction m as [|m IH]; intros a; simpl; [constructor|].
  apply insert_by_stable; [|apply IH].
  apply Forall_forall. intros x Hx.
  apply (Permutation_in _ (fold_insert_perm Qle_bool v (seq (S a) m))) in Hx.
  apply in_seq in Hx. lia.
Qed.

Lemma insertion_argsort_stable v :
  StronglySorted (stable_asc v) (insertion_argsort v).
Proof. apply fold_insert_stable. Qed.

Lemma nargsort_desc_stable v :
  StronglySorted (stable_desc v) (nargsort_desc (AS := insertion_sort) v).
Proof.
  unfold nargsort_desc.
  apply (StronglySorted_rev (fun x y => stable_desc v y x)).
  apply StronglySorted_map_iff.
  apply (StronglySorted_impl_in (stable_asc (rev v)));
    [|apply insertion_argsort_stable].
  intros j k Hj Hk Hjk.
  apply (argsort_bound (AS := insertion_sort)) in Hj, Hk.
  rewrite length_rev in Hj, Hk.
  unfold stable_asc in Hjk. unfold stable_desc.
  rewrite !rev_nth in Hjk by assumption.
  rewrite !rev_seq_nth by assumption.
  destruct Hjk as [Hlt | [Heq Hlt]].
  - left. exact Hlt.
  - right. split; [now symmetry | lia].
Qed.

Section StableSeries.
Context {K : Type} `{Key K}.

(** Descending by value, equal values by ascending key. *)
Definition entry_before (a b : K * Q) : Prop :=
  (snd b < snd a)%Q \/ ((snd a == snd b)%Q /\ key_lt (fst a) (fst b)).

Lemma sort_values_desc_stable (s : list (K * Q)) :
  StronglySorted key_lt (map fst s) ->
  StronglySorted entry_before (sort_values_desc (AS := insertion_sort) s).
Proof.
  intros Hkeys. destruct s as [|d s']; [constructor|].
  unfold sort_values_desc. set (s := d :: s') in *.
  apply StronglySorted_map_iff.
  apply (StronglySorted_impl_in (stable_desc (map snd s)));
    [|apply nargsort_desc_stable].
  intros p q Hp Hq Hpq.
  apply (nargsort_desc_bound (AS := insertion_sort)) in Hp, Hq.
  rewrite length_map in Hp, Hq.
  assert (Ev : forall i, (i < List.length s)%nat ->
                         nth i (map snd s) 0%Q = snd (nth i s d)).
  { intros i Hi. rewrite (nth_indep _ 0%Q (snd d)) by (now rewrite length_map).
    apply map_nth. }
  unfold stable_desc in Hpq. rewrite !Ev in Hpq by assumption.
  unfold entry_before. destruct Hpq as [Hlt | [Heq Hlt]]; [now left|].
  right. split; [exact Heq|].
  apply (proj1 (StronglySorted_map_iff fst key_lt s)) in Hkeys.
  apply (StronglySorted_nth _ s d Hkeys p q Hlt Hq).
Qed.

End StableSeries.

(* ================================================================== *)
(** ** Facts about the top sub-categories                             *)
(* ================================================================== *)

Section TopFacts.
Context {AS : ArgSort}.

Lemma top_subcats_length df :
  List.length (top_subcats df)
  = Nat.min 5 (List.length (groupby_sum sub_category sales df)).
Proof.
  unfold top_subcats, head. rewrite length_firstn.
  now rewrite (Permutation_length (sort_values_desc_perm _)).
Qed.

Lemma top_subcats_In e df :
  In e (top_subcats df) -> In e (groupby_sum sub_category sales df).
Proof.
  unfold top_subcats, head. intros Hin. apply In_firstn in Hin.
  now apply (Permutation_in _ (sort_values_desc_perm _)) in Hin.
Qed.

Lemma top_subcats_NoDup df : NoDup (map fst (top_subcats df)).
Proof.
  unfold top_subcats, head. rewrite <- firstn_map. apply NoDup_firstn_prefix.
  apply (Permutation_NoDup
           (Permutation_sym (Permutation_map fst (sort_values_desc_perm _)))).
  rewrite groupby_sum_keys. apply sorted_keys_NoDup.
Qed.

Lemma top_subcats_dominate df :
  Forall (fun g => In g (top_subcats df)
                   \/ Forall (fun t => (snd g <= snd t)%Q) (top_subcats df))
         (groupby_sum sub_category sales df).
Proof.
  apply Forall_forall. intros g Hg. unfold top_subcats, head.
  set (sorted := sort_values_desc (groupby_sum sub_category sales df)).
  apply (Permutation_in _ (Permutation_sym (sort_values_desc_perm _))) in Hg.
  fold sorted in Hg.
  pose proof (sort_values_desc_sorted (groupby_sum sub_category sales df)) as Hs.
  fold sorted in Hs.
  rewrite <- (firstn_skipn 5 sorted) in Hg, Hs.
  apply StronglySorted_app_inv in Hs. destruct Hs as (_ & _ & Hcross).
  apply in_app_or in Hg. destruct Hg as [Hg | Hg]; [now left | right].
  apply Forall_forall. intros t Ht. now apply Hcross.
Qed.

End TopFacts.

(* ================================================================== *)
(** ** The end-to-end scenario, evaluated                             *)
(* ================================================================== *)

Example period_str_padded :
  period_str (2021, 3) = "2021-03" /\ period_str (999, 12) = "0999-12".
Proof. split; reflexivity. Qed.

Example scenario_category_sales :
  category_sales scenario = [("Furniture", 200%Q); ("Technology", 300%Q)].
Proof. vm_compute. reflexivity. Qed.

Example scenario_monthly_sales :
  monthly_sales scenario
  = [((2021, 1), "Technology", 300%Q); ((2021, 2), "Furniture", 200%Q)].
Proof. vm_compute. reflexivity. Qed.

Example scenario_heatmap_data :
  heatmap_data scenario
  = [ ("East", [("Furniture", 200%Q); ("Technology", 100%Q)]);
      ("West", [("Furniture", 0%Q); ("Technology", 200%Q)]) ].
Proof. vm_compute. reflexivity. Qed.

Example scenario_top_subcats :
  top_subcats (AS := insertion_sort) scenario
  = [("Chairs", 200%Q); ("Computers", 200%Q); ("Phones", 100%Q)].
Proof. vm_compute. reflexivity. Qed.

(** The order of equal totals is a property of the sorting algorithm: the
    sort that shifts a position past equal values returns Computers before
    Chairs on the same frame. *)
Example scenario_top_subcats_shifting :
  top_subcats (AS := shifting_sort) scenario
  = [("Computers", 200%Q); ("Chairs", 200%Q); ("Phones", 100%Q)].
Proof. vm_compute. reflexivity. Qed.

(* ================================================================== *)
(** ** The generator                                                  *)
(* ================================================================== *)

(** C1 (profit between 0.1 and 0.3 of sales), evaluated where it fails.
    Under the scripted source the first row of [load_sample_data] has a
    normal draw of 30: line 62 computes the profit 30 * 0.1 = 3 from the
    draw, line 70 stores the clamped sales 50, and 0.1 * 50 = 5 > 3. *)
Theorem load_sample_data_profit_below_tenth_of_clamped_sales :
  exists df g' o,
    load_sample_data (RS := stub_random_state) [] = Some (df, g')
    /\ In o df
    /\ (sales o == 50)%Q /\ (profit o == 3)%Q
    /\ ~ ((1 # 10) * sales o <= profit o)%Q.
Proof.
  destruct stub_first_order_generated as (df & g' & E & Hin).
  exists df, g', stub_first_order.
  split; [exact E|]. split; [exact Hin|].
  apply stub_first_order_below_tenth.
Qed.

(** C5 (determinism).  Whatever state numpy's global generator is in when
    [generate] is called, the call returns, and two calls with the same seed
    return the same frame, row for row, and leave the generator in the same
    state: the seed is installed before the first draw, so every draw of one
    call is repeated by the other. *)
Theorem generate_deterministic :
  forall (RS : RandomState) (s : Z) (g1 g2 : rng),
  exists df g',
    generate s g1 = Some (df, g') /\ generate s g2 = Some (df, g').
Proof.
  intros RS s g1 g2.
  destruct (generate_ok s g1) as (df & g' & E & _).
  exists df, g'. split; [exact E|].
  rewrite <- E. unfold generate, bind, set_seed. reflexivity.
Qed.

(** C6 (cardinality).  For every seed, and every implementation of the
    random source, the generator returns a frame of exactly 5000 rows. *)
Theorem generate_cardinality :
  forall (RS : RandomState) (s : Z) (g : rng),
  exists df g',
    generate s g = Some (df, g') /\ List.length df = 5000%nat.
Proof.
  intros RS s g.
  destruct (generate_ok s g) as (df & g' & E & Hlen & _).
  exists df, g'. split; assumption.
Qed.

(** C7 (domain integrity).  Every row of the generated frame has a
    sub-category among the three listed for its category, sales of at least
    50, a quantity between 1 and 9, and an order date between 2021-01-01 and
    2023-12-31. *)
Theorem generate_domain_integrity :
  forall (RS : RandomState) (s : Z) (g : rng),
  exists df g',
    generate s g = Some (df, g') /\ Forall order_ok df.
Proof.
  intros RS s g.
  destruct (generate_ok s g) as (df & g' & E & _ & Hall).
  exists df, g'. split; [exact E|].
  revert Hall. apply Forall_impl. intros o [Ho _]. exact Ho.
Qed.

(** C10 (profit bounded above by 0.3 * sales).  In every generated row
    the profit is the normal draw times a factor in [0.1, 0.3] and the sales
    is the larger of that draw and 50, hence profit <= 0.3 * sales.  The
    lower bound is not guaranteed: under the scripted source the generator
    returns a row with 0.1 * sales > profit. *)
Theorem generate_profit_upper_bound :
  (forall (RS : RandomState) (s : Z) (g : rng),
     exists df g',
       generate s g = Some (df, g')
       /\ Forall (fun o => profit_of_draw (sales o) (profit o)
                           /\ (profit o <= (3 # 10) * sales o)%Q) df)
  /\ (exists (RS : RandomState) (g : rng) df g' o,
        load_sample_data g = Some (df, g') /\ In o df
        /\ ~ ((1 # 10) * sales o <= profit o)%Q).
Proof.
  split.
  - intros RS s g.
    destruct (generate_ok s g) as (df & g' & E & _ & Hall).
    exists df, g'. split; [exact E|].
    revert Hall. apply Forall_impl. intros o [_ Hp].
    split; [exact Hp | now apply profit_of_draw_upper].
  - destruct stub_first_order_generated as (df & g' & E & Hin).
    exists stub_random_state, [], df, g', stub_first_order.
    split; [exact E|]. split; [exact Hin|].
    apply stub_first_order_below_tenth.
Qed.

(* ================================================================== *)
(** ** The aggregations                                               *)
(* ================================================================== *)

(** C2 (matrix density), as the code has it.  The matrix of a frame has a
    cell for a region and a category exactly when the region occurs in that
    frame and the category occurs in that frame; the cell holds the sum of
    Sales over the rows carrying both labels, which is 0 when there is none.
    Labels that occur only outside the frame have no row or column. *)
Theorem heatmap_data_dense_over_view :
  forall (df : DataFrame) (r c : string),
    matrix_get (heatmap_data df) r c =
      if region_seen df r && category_seen df c
      then Some (match cell_rows df r c with
                 | [] => 0%Q
                 | rows => Qsum (map sales rows)
                 end)
      else None.
Proof.
  intros df r c. unfold heatmap_data.
  rewrite matrix_get_unstack, grouped_rows_seen, grouped_cols_seen, grouped_cell.
  rewrite group_region_category.
  rewrite (existsb_pointwise (fun o => key_eqb (region o) r)
                             (fun o => String.eqb (region o) r))
    by (intros o; apply string_key_eqb).
  rewrite (existsb_pointwise (fun o => key_eqb (category o) c)
                             (fun o => String.eqb (category o) c))
    by (intros o; apply string_key_eqb).
  fold (region_seen df r). fold (category_seen df c).
  destruct (cell_rows df r c); reflexivity.
Qed.

(** C2, the claim as stated, fails: the scenario has a West/Technology row,
    the view filtered to East is a subset of it, and the matrix of the view
    has no West row at all. *)
Lemma heatmap_data_not_dense_over_base :
  scenario_east = filter_df [2021] ["Technology"; "Furniture"] ["East"] scenario
  /\ ~ dense_over_base scenario scenario_east.
Proof.
  split; [reflexivity|]. intros Hdense.
  destruct (Hdense (example_order (mkTimestamp 2021 1 1)
                      "Technology" "Computers" "West" 200)) as [v Hv].
  - right. left. reflexivity.
  - vm_compute in Hv. discriminate Hv.
Qed.

(** C3, the claim as stated, fails: the matrix of the empty frame has no
    cell for the region Central and the category Technology. *)
Lemma heatmap_data_empty_not_zero_filled :
  ~ all_known_cells_zero (heatmap_data []).
Proof.
  intros Hzero.
  destruct (Hzero "Central" "Technology") as (v & Hv & _).
  - left. reflexivity.
  - left. reflexivity.
  - discriminate Hv.
Qed.

(** C4 (top sub-categories), as the code has it.  For every sorting
    algorithm and every frame, [top_subcats] returns the five largest
    sub-category totals, or all of them when there are fewer: at most 5
    rows, in descending order of total, one per sub-category, each a
    sub-category of the frame with the sum of its Sales, and no omitted
    total exceeds a returned one.  The groups reach the sort in ascending
    order of sub-category name, so under a stable sort equal totals come
    out in ascending order of name, whatever the order of the rows of the
    frame. *)
Theorem top_subcats_five_largest :
  (forall (AS : ArgSort) (df : DataFrame),
     (List.length (top_subcats (AS := AS) df) <= 5)%nat
     /\ List.length (top_subcats (AS := AS) df)
        = Nat.min 5 (List.length (groupby_sum sub_category sales df))
     /\ StronglySorted (fun a b => (snd b <= snd a)%Q)
                       (top_subcats (AS := AS) df)
     /\ NoDup (map fst (top_subcats (AS := AS) df))
     /\ Forall (fun e => snd e = Qsum (map sales (group sub_category (fst e) df))
                         /\ exists o, In o df /\ sub_category o = fst e)
               (top_subcats (AS := AS) df)
     /\ Forall (fun g => In g (top_subcats (AS := AS) df)
                         \/ Forall (fun t => (snd g <= snd t)%Q)
                                   (top_subcats (AS := AS) df))
               (groupby_sum sub_category sales df))
  /\ (forall df : DataFrame,
        StronglySorted top_row_before (top_subcats (AS := insertion_sort) df)).
Proof.
  split.
  - intros AS df. split; [|split; [|split; [|split; [|split]]]].
    + rewrite top_subcats_length. apply Nat.le_min_l.
    + apply top_subcats_length.
    + unfold top_subcats, head. apply StronglySorted_firstn.
      apply sort_values_desc_sorted.
    + apply top_subcats_NoDup.
    + apply Forall_forall. intros [k v] Hin.
      apply top_subcats_In, groupby_sum_In in Hin. destruct Hin as [Hk ->].
      split; [reflexivity|]. apply in_map_iff in Hk.
      destruct Hk as (o & E & Ho). exists o. split; assumption.
    + apply top_subcats_dominate.
  - intros df. unfold top_subcats, head. apply StronglySorted_firstn.
    apply (StronglySorted_impl_in entry_before).
    + intros a b _ _ [Hlt | [Heq Hk]]; [now left | right].
      split; [exact Heq | now apply string_ltb_lt].
    + apply sort_values_desc_stable.
      rewrite groupby_sum_keys. apply sorted_keys_sorted.
Qed.

(** C4, the claim as stated, fails whatever the sorting algorithm.  The
    two frames hold the same two rows, Computers 200 and Chairs 200, in
    opposite orders; both are grouped into the same series, so the sort
    returns the same order for both, and that order is not the encounter
    order of one of them. *)
Lemma top_subcats_ties_not_in_encounter_order :
  ~ exists AS : ArgSort,
      ties_in_encounter_order computers_first
                              (top_subcats (AS := AS) computers_first)
      /\ ties_in_encounter_order chairs_first
                                 (top_subcats (AS := AS) chairs_first).
Proof.
  intros (AS & H1 & H2). unfold top_subcats, head in H1, H2.
  assert (G1 : groupby_sum sub_category sales computers_first
               = [("Chairs", 200%Q); ("Computers", 200%Q)])
    by (vm_compute; reflexivity).
  assert (G2 : groupby_sum sub_category sales chairs_first
               = [("Chairs", 200%Q); ("Computers", 200%Q)])
    by (vm_compute; reflexivity).
  rewrite G1 in H1. rewrite G2 in H2.
  pose proof (sort_values_desc_perm [("Chairs", 200%Q); ("Computers", 200%Q)]) as P.
  apply Permutation_sym, Permutation_length_2_inv in P.
  destruct P as [E | E]; rewrite E in H1, H2; simpl firstn in H1, H2.
  - specialize (H1 0%nat 1%nat ("Chairs", 200%Q) ("Computers", 200%Q)).
    assert (H : (first_seen "Chairs" computers_first
                 < first_seen "Computers" computers_first)%nat).
    { apply H1; [lia | reflexivity | reflexivity | reflexivity]. }
    vm_compute in H. lia.
  - specialize (H2 0%nat 1%nat ("Computers", 200%Q) ("Chairs", 200%Q)).
    assert (H : (first_seen "Computers" chairs_first
                 < first_seen "Chairs" chairs_first)%nat).
    { apply H2; [lia | reflexivity | reflexivity | reflexivity]. }
    vm_compute in H. lia.
Qed.

(** C8 (sum conservation).  The values of [category_sales] add up to the
    total of the Sales column, for every frame; the equality is that of the
    rationals, the exact counterpart of equality within rounding. *)
Theorem category_sales_conserves_total :
  forall df : DataFrame,
    (Qsum (map snd (category_sales df)) == Qsum (map sales df))%Q.
Proof. intros df. apply groupby_sum_total. Qed.

(** C9 (monthly sales by category).  The rows of [monthly_sales] are the
    distinct (year-month, category) pairs of the frame, each with the sum of
    Sales over the rows of that pair, in ascending order of year-month and,
    within a year-month, of category. *)
Theorem monthly_sales_grouped_and_ordered :
  forall df : DataFrame,
    StronglySorted monthly_row_before (monthly_sales df)
    /\ Forall (fun e => snd e = Qsum (map sales (group month_and_category (fst e) df))
                        /\ exists o, In o df /\ month_and_category o = fst e)
              (monthly_sales df)
    /\ Forall (fun o => In (month_and_category o,
                            Qsum (map sales (group month_and_category
                                               (month_and_category o) df)))
                           (monthly_sales df)) df.
Proof.
  intros df. unfold monthly_sales. fold month_and_category. split; [|split].
  - pose proof (sorted_keys_sorted (map month_and_category df)) as Hs.
    rewrite <- (groupby_sum_keys month_and_category sales) in Hs.
    apply (proj1 (StronglySorted_map_iff fst key_lt _)) in Hs.
    apply (StronglySorted_impl_in (fun a b => key_lt (fst a) (fst b))); [|exact Hs].
    intros a b _ _ Hab. now apply monthly_key_lt.
  - apply Forall_forall. intros [k v] Hin.
    apply groupby_sum_In in Hin. destruct Hin as [Hk ->].
    split; [reflexivity|]. apply in_map_iff in Hk.
    destruct Hk as (o & E & Ho). exists o. split; assumption.
  - apply Forall_forall. intros o Ho. apply groupby_sum_In.
    split; [now apply in_map | reflexivity].
Qed.

(* ================================================================== *)
(** ** Facts about the sidebar filters                                *)
(* ================================================================== *)

Lemma key_eqb_neq_iff {K} `{Key K} (a b : K) : key_eqb a b = false <-> a <> b.
Proof.
  split.
  - intros E Hab. apply key_eqb_eq in Hab. congruence.
  - intros Hab. destruct (key_eqb a b) eqn:E; [|reflexivity].
    apply key_eqb_eq in E. contradiction.
Qed.

Section UniqueFacts.
Context {K : Type} `{Key K}.

Lemma unique_In (x : K) l : In x (unique l) <-> In x l.
Proof.
  induction l as [|a l IH]; simpl; [tauto|].
  rewrite filter_In, IH, negb_true_iff, key_eqb_neq_iff.
  destruct (key_eqb x a) eqn:E.
  - apply key_eqb_eq in E. subst. intuition.
  - assert (x <> a) by (intros ->; rewrite key_eqb_refl in E; discriminate).
    intuition.
Qed.

Lemma unique_NoDup l : NoDup (unique l).
Proof.
  induction l as [|a l IH]; simpl; constructor.
  - rewrite filter_In, negb_true_iff. intros [_ E].
    rewrite key_eqb_refl in E. discriminate.
  - now apply NoDup_filter.
Qed.

End UniqueFacts.

Lemma insert_sorted_perm x l : Permutation (insert_sorted x l) (x :: l).
Proof.
  induction l as [|y l IH]; simpl; [reflexivity|].
  destruct (x <=? y); [reflexivity|]. rewrite IH. apply perm_swap.
Qed.

Lemma py_sorted_perm l : Permutation (py_sorted l) l.
Proof.
  induction l as [|x l IH]; simpl; [constructor|].
  rewrite insert_sorted_perm. now constructor.
Qed.

Lemma insert_sorted_sorted x l :
  StronglySorted Z.le l -> StronglySorted Z.le (insert_sorted x l).
Proof.
  induction l as [|y l IH]; simpl; intros Hs.
  - repeat constructor.
  - apply StronglySorted_inv in Hs. destruct Hs as [Hs Hall].
    destruct (x <=? y) eqn:E.
    + apply Z.leb_le in E. constructor; [now constructor|].
      constructor; [exact E|]. revert Hall. apply Forall_impl. intros; lia.
    + apply Z.leb_gt in E. constructor; [now apply IH|].
      apply Forall_forall. intros z Hz.
      apply (Permutation_in _ (insert_sorted_perm x l)) in Hz.
      destruct Hz as [<- | Hz]; [lia|].
      rewrite Forall_forall in Hall. now apply Hall.
Qed.

Lemma py_sorted_sorted l : StronglySorted Z.le (py_sorted l).
Proof.
  induction l as [|x l IH]; simpl; [constructor | now apply insert_sorted_sorted].
Qed.

Lemma sorted_le_NoDup_lt l :
  StronglySorted Z.le l -> NoDup l -> StronglySorted Z.lt l.
Proof.
  induction 1 as [|x l Hs IH Hall]; intros Hnd; [constructor|].
  inversion Hnd as [|? ? Hx Hnd']; subst.
  constructor; [now apply IH|].
  rewrite Forall_forall in *. intros y Hy. specialize (Hall y Hy).
  assert (x <> y) by (intros ->; contradiction). lia.
Qed.

Lemma existsb_Z_In y l : existsb (Z.eqb y) l = true <-> In y l.
Proof.
  rewrite existsb_exists. split.
  - intros (x & Hx & E). apply Z.eqb_eq in E. now subst.
  - intros Hy. exists y. split; [exact Hy | apply Z.eqb_refl].
Qed.

Lemma existsb_string_In y l : existsb (String.eqb y) l = true <-> In y l.
Proof.
  rewrite existsb_exists. split.
  - intros (x & Hx & E). apply String.eqb_eq in E. now subst.
  - intros Hy. exists y. split; [exact Hy | apply String.eqb_refl].
Qed.

(** The filtered view holds exactly the rows whose year, category and
    region are all selected. *)
Lemma filter_df_In o ys cs rs df :
  In o (filter_df ys cs rs df) <->
  In o df /\ In (year o) ys /\ In (category o) cs /\ In (region o) rs.
Proof.
  unfold filter_df. rewrite filter_In, !andb_true_iff.
  rewrite existsb_Z_In, !existsb_string_In. tauto.
Qed.

Lemma year_options_In y df : In y (year_options df) <-> In y (map year df).
Proof.
  unfold year_options. rewrite <- (unique_In y (map year df)). split.
  - apply Permutation_in, py_sorted_perm.
  - apply Permutation_in, Permutation_sym, py_sorted_perm.
Qed.

(* ================================================================== *)
(** ** The sidebar                                                    *)
(* ================================================================== *)

Lemma filter_df_default_selection df :
  filter_df (year_options df) (category_options df) (region_options df) df = df.
Proof.
  unfold filter_df. apply forallb_filter_id.
  apply forallb_forall. intros o Ho. rewrite !andb_true_iff.
  rewrite existsb_Z_In, !existsb_string_In, year_options_In.
  unfold category_options, region_options. rewrite !unique_In.
  repeat split; now apply in_map.
Qed.

(** X1 (default selection).  With the default selections of the three
    widgets, which are their full option lists, the filtered view is the
    whole frame, rows and order unchanged. *)
Theorem default_selection_keeps_frame :
  forall df : DataFrame,
    filter_df (year_options df) (category_options df) (region_options df) df
    = df.
Proof.
  intros df. unfold filter_df. apply forallb_filter_id.
  apply forallb_forall. intros o Ho. rewrite !andb_true_iff.
  rewrite existsb_Z_In, !existsb_string_In, year_options_In.
  unfold category_options, region_options. rewrite !unique_In.
  repeat split; now apply in_map.
Qed.

(** X2 (widget options).  Each widget lists every value of its column
    exactly once: the years in strictly ascending order, the categories and
    the regions without repetition. *)
Theorem widget_options_distinct :
  forall df : DataFrame,
    StronglySorted Z.lt (year_options df)
    /\ (forall y, In y (year_options df) <-> exists o, In o df /\ year o = y)
    /\ NoDup (category_options df)
    /\ (forall c, In c (category_options df)
                  <-> exists o, In o df /\ category o = c)
    /\ NoDup (region_options df)
    /\ (forall r, In r (region_options df)
                  <-> exists o, In o df /\ region o = r).
Proof.
  intros df. repeat split.
  - apply sorted_le_NoDup_lt; [apply py_sorted_sorted|].
    apply (Permutation_NoDup (Permutation_sym (py_sorted_perm _))).
    apply unique_NoDup.
  - intros Hy. apply year_options_In, in_map_iff in Hy.
    destruct Hy as (o & E & Ho). now exists o.
  - intros (o & Ho & <-). apply year_options_In. now apply in_map.
  - apply unique_NoDup.
  - intros Hc. apply unique_In, in_map_iff in Hc.
    destruct Hc as (o & E & Ho). now exists o.
  - intros (o & Ho & <-). apply unique_In. now apply in_map.
  - apply unique_NoDup.
  - intros Hr. apply unique_In, in_map_iff in Hr.
    destruct Hr as (o & E & Ho). now exists o.
  - intros (o & Ho & <-). apply unique_In. now apply in_map.
Qed.

Lemma filter_df_no_year cs rs df : filter_df [] cs rs df = [].
Proof. unfold filter_df. induction df as [|o df IH]; simpl; [reflexivity | exact IH]. Qed.

Lemma filter_df_no_category ys rs df : filter_df ys [] rs df = [].
Proof.
  unfold filter_df. induction df as [|o df IH]; simpl; [reflexivity|].
  rewrite andb_false_r. exact IH.
Qed.

Lemma filter_df_no_region ys cs df : filter_df ys cs [] df = [].
Proof.
  unfold filter_df. induction df as [|o df IH]; simpl; [reflexivity|].
  rewrite andb_false_r. exact IH.
Qed.

(** X3 (nothing selected).  When one widget has no selection the
    filtered view is empty, whatever the other two select: no chart is
    drawn, the totals are 0 and the average order value is NaN. *)
Theorem empty_selection_empties_dashboard :
  forall (AS : ArgSort) (df : DataFrame) (ys : list Z) (cs rs : list string),
    Forall (fun view =>
              view = []
              /\ main_charts (AS := AS) view = no_charts
              /\ total_sales view = 0%Q /\ total_profit view = 0%Q
              /\ total_orders view = 0%nat
              /\ avg_order_value view = None)
           [ filter_df [] cs rs df; filter_df ys [] rs df; filter_df ys cs [] df ].
Proof.
  intros AS df ys cs rs.
  rewrite filter_df_no_year, filter_df_no_category, filter_df_no_region.
  repeat constructor.
Qed.

(* ================================================================== *)
(** ** More facts about grouping and the pivot                        *)
(* ================================================================== *)

Section SortedKeysExt.
Context {K : Type} `{Key K}.

(** A strictly ascending list is determined by its elements. *)
Lemma key_lt_sorted_ext (l l' : list K) :
  StronglySorted key_lt l -> StronglySorted key_lt l' ->
  (forall x, In x l <-> In x l') -> l = l'.
Proof.
  intros Hs. revert l'. induction Hs as [|a l Hs IH Ha]; intros l' Hs' Hin.
  - destruct l' as [|b l']; [reflexivity|].
    exfalso. apply (Hin b). now left.
  - destruct Hs' as [|b l' Hs' Hb].
    { exfalso. apply (Hin a). now left. }
    rewrite Forall_forall in Ha, Hb.
    assert (E : a = b).
    { destruct (proj1 (Hin a) (or_introl eq_refl)) as [E | Hal]; [now symmetry|].
      destruct (proj2 (Hin b) (or_introl eq_refl)) as [E | Hbl]; [exact E|].
      specialize (Ha b Hbl). specialize (Hb a Hal). unfold key_lt in Ha, Hb.
      rewrite (key_ltb_asym _ _ Ha) in Hb. discriminate. }
    subst b. f_equal. apply IH; [exact Hs'|].
    intros x. split; intros Hx.
    + destruct (proj1 (Hin x) (or_intror Hx)) as [E | Hx']; [|exact Hx'].
      subst x. specialize (Ha a Hx). unfold key_lt in Ha.
      rewrite key_ltb_irrefl in Ha. discriminate.
    + destruct (proj2 (Hin x) (or_intror Hx)) as [E | Hx']; [|exact Hx'].
      subst x. specialize (Hb a Hx). unfold key_lt in Hb.
      rewrite key_ltb_irrefl in Hb. discriminate.
Qed.

Lemma sorted_keys_ext (l l' : list K) :
  (forall x, In x l <-> In x l') -> sorted_keys l = sorted_keys l'.
Proof.
  intros Hin. apply key_lt_sorted_ext; try apply sorted_keys_sorted.
  intros x. now rewrite !sorted_keys_In.
Qed.

End SortedKeysExt.

Lemma Qsum_map_ext {A} (f g : A -> Q) (l : list A) :
  (forall x, In x l -> (f x == g x)%Q) ->
  (Qsum (map f l) == Qsum (map g l))%Q.
Proof.
  induction l as [|a l IH]; simpl; intros E; [reflexivity|].
  rewrite (E a (or_introl eq_refl)), IH; [reflexivity|].
  intros x Hx. apply E. now right.
Qed.

Lemma grouped_region_labels df :
  sorted_keys (map (fun e => fst (fst e))
                   (groupby_sum (fun o => (region o, category o)) sales df))
  = sorted_keys (map region df).
Proof.
  apply sorted_keys_ext. intros r.
  rewrite <- (map_map fst fst), groupby_sum_keys, !in_map_iff. split.
  - intros (k & E & Hk). apply sorted_keys_In, in_map_iff in Hk.
    destruct Hk as (o & <- & Ho). exists o. split; [exact E | exact Ho].
  - intros (o & E & Ho). exists (region o, category o).
    split; [exact E|]. apply sorted_keys_In.
    now apply (in_map (fun o => (region o, category o))).
Qed.

Lemma grouped_category_labels df :
  sorted_keys (map (fun e => snd (fst e))
                   (groupby_sum (fun o => (region o, category o)) sales df))
  = sorted_keys (map category df).
Proof.
  apply sorted_keys_ext. intros c.
  rewrite <- (map_map fst snd), groupby_sum_keys, !in_map_iff. split.
  - intros (k & E & Hk). apply sorted_keys_In, in_map_iff in Hk.
    destruct Hk as (o & <- & Ho). exists o. split; [exact E | exact Ho].
  - intros (o & E & Ho). exists (region o, category o).
    split; [exact E|]. apply sorted_keys_In.
    now apply (in_map (fun o => (region o, category o))).
Qed.

(* ================================================================== *)
(** ** The heatmap                                                    *)
(* ================================================================== *)

(** The matrix in closed form, for the proofs below. *)
Lemma heatmap_data_form :
  forall df : DataFrame,
    heatmap_data df
    = map (fun r =>
             (r, map (fun c => (c, Qsum (map sales (cell_rows df r c))))
                     (sorted_keys (map category df))))
          (sorted_keys (map region df)).
Proof.
  intros df. unfold heatmap_data, unstack.
  rewrite grouped_region_labels, grouped_category_labels.
  apply map_ext. intros r. f_equal. apply map_ext. intros c. f_equal.
  rewrite (grouped_cell region category sales r c df).
  now rewrite group_region_category.
Qed.

(** X4 (shape of the heatmap matrix).  The matrix is rectangular: one
    row per distinct region of the frame, in ascending order, and in every
    row one cell per distinct category of the frame, in ascending order;
    each cell holds the sum of Sales over the rows of the frame with that
    region and that category. *)
Theorem heatmap_data_rectangular :
  forall df : DataFrame,
    heatmap_data df
    = map (fun r =>
             (r, map (fun c => (c, Qsum (map sales (cell_rows df r c))))
                     (sorted_keys (map category df))))
          (sorted_keys (map region df)).
Proof.
  intros df. unfold heatmap_data, unstack.
  rewrite grouped_region_labels, grouped_category_labels.
  apply map_ext. intros r. f_equal. apply map_ext. intros c. f_equal.
  rewrite (grouped_cell region category sales r c df).
  now rewrite group_region_category.
Qed.

Lemma filter_filter_andb {A} (f g : A -> bool) (l : list A) :
  filter f (filter g l) = filter (fun x => g x && f x) l.
Proof.
  induction l as [|a l IH]; simpl; [reflexivity|].
  destruct (g a); simpl; [destruct (f a)|]; now rewrite IH.
Qed.

(** The rows of one region. *)
Definition region_rows (df : DataFrame) (r : string) : DataFrame :=
  filter (fun o => String.eqb (region o) r) df.

Lemma cell_rows_of_region_rows df r c :
  cell_rows df r c = group category c (region_rows df r).
Proof.
  unfold cell_rows, group, region_rows. rewrite filter_filter_andb.
  apply filter_ext. intros o. now rewrite string_key_eqb.
Qed.

Lemma region_rows_group df r : region_rows df r = group region r df.
Proof.
  unfold region_rows, group. apply filter_ext. intros o.
  now rewrite string_key_eqb.
Qed.

Lemma heatmap_row_total df r :
  (Qsum (map (fun c => Qsum (map sales (cell_rows df r c)))
             (sorted_keys (map category df)))
   == Qsum (map sales (region_rows df r)))%Q.
Proof.
  rewrite (map_ext _ (fun c => Qsum (map sales (group category c (region_rows df r)))))
    by (intros c; now rewrite cell_rows_of_region_rows).
  apply (groups_total_all category sales).
  - apply sorted_keys_NoDup.
  - intros o Ho. apply sorted_keys_In. apply in_map.
    apply filter_In in Ho. tauto.
Qed.

(** X5 (every chart accounts for all sales).  The cells of the heatmap
    matrix, the rows of the monthly table and the rows handed to the line
    plot each add up to the total of the Sales column, the Total Sales
    metric of the same view. *)
Theorem charts_conserve_total_sales :
  forall df : DataFrame,
    (Qsum (map (fun row => Qsum (map snd (snd row))) (heatmap_data df))
     == total_sales df)%Q
    /\ (Qsum (map snd (monthly_sales df)) == total_sales df)%Q
    /\ (Qsum (map snd (create_line_plot df)) == total_sales df)%Q.
Proof.
  intros df. split; [|split].
  - rewrite heatmap_data_form, map_map. simpl.
    rewrite (Qsum_map_ext _ (fun r => Qsum (map sales (group region r df)))).
    + apply (groups_total_all region sales).
      * apply sorted_keys_NoDup.
      * intros o Ho. apply sorted_keys_In. now apply in_map.
    + intros r _. rewrite map_map. simpl.
      rewrite heatmap_row_total. now rewrite region_rows_group.
  - apply groupby_sum_total.
  - unfold create_line_plot. rewrite map_map. simpl.
    apply groupby_sum_total.
Qed.

(* ================================================================== *)
(** ** The charts of a filtered view                                  *)
(* ================================================================== *)

Lemma filter_df_annotate_year o ys cs rs data :
  In o (filter_df ys cs rs (map annotate data)) -> In (fst (year_month o)) ys.
Proof.
  intros Ho. apply filter_df_In in Ho. destruct Ho as (Ho & Hy & _).
  apply in_map_iff in Ho. destruct Ho as (r & <- & _). exact Hy.
Qed.

(** X6 (the charts respect the selection).  In the charts of a filtered
    view every bar and every point of the line plot belongs to a selected
    category, every row of the heatmap to a selected region and every
    column to a selected category; for a frame built as [load_sample_data]
    builds it, every month of the line plot lies in a selected year. *)
Theorem charts_respect_selection :
  (forall (df : DataFrame) (ys : list Z) (cs rs : list string),
     let view := filter_df ys cs rs df in
     Forall (fun e => In (fst e) cs) (category_sales view)
     /\ Forall (fun e => In (snd (fst e)) cs) (monthly_sales view)
     /\ Forall (fun row => In (fst row) rs
                           /\ Forall (fun cell => In (fst cell) cs) (snd row))
               (heatmap_data view))
  /\ (forall (data : list Row) (ys : list Z) (cs rs : list string),
        Forall (fun e => In (fst (fst (fst e))) ys)
               (monthly_sales (filter_df ys cs rs (map annotate data)))).
Proof.
  split.
  - intros df ys cs rs view. split; [|split].
    + apply Forall_forall. intros [k v] Hin.
      apply groupby_sum_In in Hin. destruct Hin as [Hk _].
      apply in_map_iff in Hk. destruct Hk as (o & <- & Ho).
      apply filter_df_In in Ho. simpl. tauto.
    + apply Forall_forall. intros [k v] Hin.
      apply groupby_sum_In in Hin. destruct Hin as [Hk _].
      apply in_map_iff in Hk. destruct Hk as (o & <- & Ho).
      apply filter_df_In in Ho. simpl. tauto.
    + rewrite heatmap_data_form. apply Forall_forall.
      intros row Hrow. apply in_map_iff in Hrow.
      destruct Hrow as (r & <- & Hr). simpl. split.
      * apply sorted_keys_In, in_map_iff in Hr. destruct Hr as (o & <- & Ho).
        apply filter_df_In in Ho. tauto.
      * apply Forall_forall. intros cell Hcell. apply in_map_iff in Hcell.
        destruct Hcell as (c & <- & Hc). simpl.
        apply sorted_keys_In, in_map_iff in Hc. destruct Hc as (o & <- & Ho).
        apply filter_df_In in Ho. tauto.
  - intros data ys cs rs. apply Forall_forall. intros [k v] Hin.
    apply groupby_sum_In in Hin. destruct Hin as [Hk _].
    apply in_map_iff in Hk. destruct Hk as (o & <- & Ho). simpl.
    eapply filter_df_annotate_year. eassumption.
Qed.

Section SeriesLookup.
Context {K : Type} `{Key K} {R : Type} (key : R -> K) (val : R -> Q).

(** Reading a grouped series at a label: the sum of the group when the key
    is observed, nothing otherwise. *)
Lemma series_get_groupby_sum k df :
  series_get k (groupby_sum key val df)
  = if existsb (fun r => key_eqb (key r) k) df
    then Some (Qsum (map val (group key k df)))
    else None.
Proof.
  unfold groupby_sum.
  rewrite (series_get_map (fun k' => Qsum (map val (group key k' df)))).
  assert (E : existsb (key_eqb k) (sorted_keys (map key df))
              = existsb (fun r => key_eqb (key r) k) df).
  { apply eq_true_iff_eq. rewrite existsb_key_In, sorted_keys_In.
    rewrite in_map_iff, existsb_exists. split.
    - intros (r & E & Hin). exists r. split; [exact Hin|]. now apply key_eqb_eq.
    - intros (r & Hin & E). exists r. split; [now apply key_eqb_eq | exact Hin]. }
  now rewrite E.
Qed.

End SeriesLookup.

Lemma existsb_filter {A} (f g : A -> bool) (l : list A) :
  existsb f (filter g l) = existsb (fun x => g x && f x) l.
Proof.
  induction l as [|a l IH]; simpl; [reflexivity|].
  destruct (g a); simpl; now rewrite IH.
Qed.

Lemma existsb_ext_in {A} (f g : A -> bool) (l : list A) :
  (forall x, In x l -> f x = g x) -> existsb f l = existsb g l.
Proof.
  induction l as [|a l IH]; simpl; intros E; [reflexivity|].
  rewrite (E a (or_introl eq_refl)), IH; [reflexivity|].
  intros x Hx. apply E. now right.
Qed.

(** On the rows of a category, selecting that category or all categories
    makes no difference to the filter. *)
Lemma category_mask df ys cs rs c o :
  In o df ->
  (existsb (Z.eqb (year o)) ys && existsb (String.eqb (category o)) cs
   && existsb (String.eqb (region o)) rs) && key_eqb (category o) c
  = if existsb (String.eqb c) cs
    then (existsb (Z.eqb (year o)) ys
          && existsb (String.eqb (category o)) (category_options df)
          && existsb (String.eqb (region o)) rs) && key_eqb (category o) c
    else false.
Proof.
  intros Ho. destruct (key_eqb (category o) c) eqn:E.
  - apply key_eqb_eq in E. subst c.
    assert (Hall : existsb (String.eqb (category o)) (category_options df) = true).
    { apply existsb_string_In. unfold category_options. apply unique_In.
      now apply in_map. }
    rewrite Hall. destruct (existsb (String.eqb (category o)) cs);
      [reflexivity | now rewrite !andb_false_r].
  - rewrite !andb_false_r. now destruct (existsb (String.eqb c) cs).
Qed.

(** X7 (deselecting categories leaves the other bars unchanged).  The
    bar of a selected category in the filtered view is the bar it has when
    all categories are selected, with the same years and regions; a
    category that is not selected has no bar. *)
Theorem category_selection_keeps_other_bars :
  forall (df : DataFrame) (ys : list Z) (cs rs : list string) (c : string),
    series_get c (category_sales (filter_df ys cs rs df))
    = if existsb (String.eqb c) cs
      then series_get c (category_sales
                           (filter_df ys (category_options df) rs df))
      else None.
Proof.
  intros df ys cs rs c. unfold category_sales.
  rewrite !series_get_groupby_sum. unfold group, filter_df.
  rewrite !existsb_filter, !filter_filter_andb.
  rewrite (existsb_ext_in _ _ df (fun o Ho => category_mask df ys cs rs c o Ho)).
  rewrite (filter_ext_in _ _ df (fun o Ho => category_mask df ys cs rs c o Ho)).
  destruct (existsb (String.eqb c) cs); [reflexivity|].
  assert (E : existsb (fun _ : Order => false) df = false)
    by (induction df as [|o df IH]; [reflexivity | exact IH]).
  now rewrite E.
Qed.

(* ================================================================== *)
(** ** More facts about the generator                                 *)
(* ================================================================== *)

(** What a drawn row carries from the lists it was drawn from. *)
Definition row_labelled (r : Row) : Prop :=
  In (row_date r) dates
  /\ In (row_category r) categories
  /\ In (row_region r) regions
  /\ category_of (row_sub_category r) subcategories = Some (row_category r).

Lemma category_of_drawn cat subs sub :
  In cat categories -> dict_get cat subcategories = Some subs -> In sub subs ->
  category_of sub subcategories = Some cat.
Proof.
  intros [<- | [<- | [<- | []]]] E; simpl in E; injection E as <-;
    intros [<- | [<- | [<- | []]]]; reflexivity.
Qed.

Lemma dates_calendar d :
  In d dates ->
  2021 <= ts_year d <= 2023 /\ 1 <= ts_month d <= 12
  /\ In (to_period d) generator_periods.
Proof.
  assert (E : forallb (fun d => (2021 <=? ts_year d) && (ts_year d <=? 2023)
                                && (1 <=? ts_month d) && (ts_month d <=? 12)
                                && existsb (key_eqb (to_period d)) generator_periods)
                      dates = true)
    by (vm_compute; reflexivity).
  intros Hd. rewrite forallb_forall in E. specialize (E d Hd).
  rewrite !andb_true_iff, !Z.leb_le in E.
  destruct E as ((((H1 & H2) & H3) & H4) & H5).
  apply existsb_key_In in H5. repeat split; assumption.
Qed.

Section GeneratorLabels.
Context {RS : RandomState}.

Lemma yields_conj {A} (m : M A) (P Q : A -> Prop) :
  yields m P -> yields m Q -> yields m (fun a => P a /\ Q a).
Proof.
  intros HP HQ g. destruct (HP g) as (a & g' & E & Pa).
  destruct (HQ g) as (a' & g'' & E' & Qa').
  rewrite E in E'. injection E' as <- <-.
  exists a, g'. repeat split; assumption.
Qed.

Lemma draw_row_labelled : yields draw_row row_labelled.
Proof.
  unfold draw_row.
  apply yields_bind with (P := fun d => In d dates).
  { apply yields_choice. intros E. pose proof dates_length as L.
    rewrite E in L. discriminate L. }
  intros date Hdate.
  apply yields_bind with (P := fun c => In c categories).
  { apply yields_choice. discriminate. }
  intros cat Hcat.
  destruct (categories_tables cat Hcat) as (subs & base & Esubs & Lsubs & Ebase).
  apply yields_bind with (P := fun s => s = subs).
  { now apply yields_of_option with (a := subs). }
  intros ? ->.
  apply yields_bind with (P := fun s => In s subs).
  { apply yields_choice. intros E. rewrite E in Lsubs. discriminate Lsubs. }
  intros sub Hsub.
  apply yields_bind with (P := fun r => In r regions).
  { apply yields_choice. discriminate. }
  intros reg Hreg.
  apply yields_bind with (P := fun b => b = base).
  { now apply yields_of_option with (a := base). }
  intros ? ->.
  apply yields_bind with (P := fun _ => True); [apply yields_normal|].
  intros draw _.
  apply yields_bind with (P := fun _ => True).
  { intros g. destruct (yields_uniform (1 # 10) (3 # 10)) with (g := g)
      as (a & g' & E & _); [discriminate|]. now exists a, g'. }
  intros factor _.
  apply yields_bind with (P := fun _ => True).
  { intros g. destruct (yields_randint 1 10) with (g := g)
      as (a & g' & E & _); [lia|]. now exists a, g'. }
  intros q _.
  apply yields_ret. unfold row_labelled.
  cbn [row_date row_category row_region row_sub_category].
  split; [exact Hdate|]. split; [exact Hcat|]. split; [exact Hreg|].
  eapply category_of_drawn; eassumption.
Qed.

(** The generator returns from every state, and each of its 5000 rows is
    the annotation of a drawn row. *)
Lemma generate_rows (P : Row -> Prop) (s : Z) :
  yields draw_row P ->
  yields (generate s)
         (fun df => List.length df = 5000%nat
                    /\ Forall (fun o => exists r, o = annotate r /\ P r) df).
Proof.
  intros Hrow. unfold generate.
  apply yields_bind with (P := fun _ => True).
  { intros g. exists tt, (seed s). split; [reflexivity | exact I]. }
  intros _ _.
  apply yields_bind
    with (P := fun d => Forall P d /\ List.length d = (0 + 5000)%nat).
  { apply (for_range_ok P Hrow 5000 []). constructor. }
  intros data [Hdata Hlen].
  apply yields_ret. split.
  - rewrite length_map. exact Hlen.
  - apply Forall_map. revert Hdata. apply Forall_impl.
    intros r Hr. exists r. split; [reflexivity | exact Hr].
Qed.

Lemma generate_full (s : Z) :
  yields (generate s)
         (fun df => Forall (fun o => exists r, o = annotate r
                                               /\ row_ok r /\ row_labelled r) df).
Proof.
  intros g.
  destruct (generate_rows (fun r => row_ok r /\ row_labelled r) s
              (yields_conj _ _ _ draw_row_ok draw_row_labelled) g)
    as (df & g' & E & _ & Hall).
  exists df, g'. split; assumption.
Qed.

End GeneratorLabels.

Lemma annotate_labelled r : row_labelled r -> order_labelled (annotate r).
Proof.
  intros (Hd & Hc & Hr & _). unfold order_labelled.
  cbn [annotate order_date category region year month year_month to_period].
  split; [exact Hd|]. split; [exact Hc|]. split; [exact Hr|].
  repeat split.
Qed.

(** Everything the generator guarantees of one row of its frame. *)
Definition generated_order (o : Order) : Prop :=
  order_ok o
  /\ profit_of_draw (sales o) (profit o)
  /\ order_labelled o
  /\ category_of (sub_category o) subcategories = Some (category o).

Lemma generate_generated_orders {RS : RandomState} (s : Z) :
  yields (generate s) (fun df => Forall generated_order df).
Proof.
  intros g. destruct (generate_full s g) as (df & g' & E & Hall).
  exists df, g'. split; [exact E|].
  revert Hall. apply Forall_impl. intros o (r & -> & Hok & Hlab).
  unfold generated_order. split; [now apply annotate_ok|].
  split; [destruct Hok as (_ & _ & _ & _ & _ & Hp); exact Hp|].
  split; [now apply annotate_labelled|].
  destruct Hlab as (_ & _ & _ & Hc). exact Hc.
Qed.

Lemma Forall_filter_keep {A} (P : A -> Prop) (f : A -> bool) (l : list A) :
  Forall P l -> Forall P (filter f l).
Proof.
  rewrite !Forall_forall. intros H x Hx. apply H.
  apply filter_In in Hx. tauto.
Qed.

Lemma generated_view {RS : RandomState} (s : Z) (ys : list Z)
  (cs rs : list string) :
  yields (generate s)
         (fun df => Forall generated_order (filter_df ys cs rs df)).
Proof.
  intros g. destruct (generate_generated_orders s g) as (df & g' & E & Hall).
  exists df, g'. split; [exact E|]. now apply Forall_filter_keep.
Qed.

(* ================================================================== *)
(** ** The generated frame, its labels and its derived columns        *)
(* ================================================================== *)

(** X8 (labels and derived columns).  Every row of the generated frame
    has a category among the three and a region among the four of the
    generator; its Year and Month columns are the year and the month of its
    order date, the year between 2021 and 2023 and the month between 1 and
    12, and its Year-Month column is that year with that month. *)
Theorem generate_labels_and_derived_columns :
  forall (RS : RandomState) (s : Z) (g : rng),
  exists df g',
    generate s g = Some (df, g')
    /\ Forall (fun o =>
                 In (category o) categories /\ In (region o) regions
                 /\ year o = ts_year (order_date o)
                 /\ month o = ts_month (order_date o)
                 /\ 2021 <= year o <= 2023 /\ 1 <= month o <= 12
                 /\ year_month o = (year o, month o)) df.
Proof.
  intros RS s g.
  destruct (generate_generated_orders s g) as (df & g' & E & Hall).
  exists df, g'. split; [exact E|].
  revert Hall. apply Forall_impl.
  intros o (_ & _ & (Hd & Hc & Hr & Hy & Hm & Hym) & _).
  destruct (dates_calendar _ Hd) as (Hyr & Hmr & _).
  rewrite Hy, Hm. repeat split; try assumption; try lia.
  now rewrite Hym, Hy, Hm.
Qed.

(** X9 (the sub-category determines the category).  In the generated
    frame the category of a row is the one whose list holds the row's
    sub-category, so two rows with the same sub-category have the same
    category and a sub-category total never mixes categories. *)
Theorem generate_sub_category_determines_category :
  forall (RS : RandomState) (s : Z) (g : rng),
  exists df g',
    generate s g = Some (df, g')
    /\ Forall (fun o => category_of (sub_category o) subcategories
                        = Some (category o)) df.
Proof.
  intros RS s g.
  destruct (generate_generated_orders s g) as (df & g' & E & Hall).
  exists df, g'. split; [exact E|].
  revert Hall. apply Forall_impl. intros o (_ & _ & _ & Hc). exact Hc.
Qed.

(* ================================================================== *)
(** ** The key metrics                                                *)
(* ================================================================== *)

Lemma total_profit_bound df :
  Forall (fun o => (profit o <= (3 # 10) * sales o)%Q) df ->
  (total_profit df <= (3 # 10) * total_sales df)%Q.
Proof.
  unfold total_profit, total_sales.
  induction 1 as [|o df Ho Hall IH]; simpl; [discriminate|]. lra.
Qed.

Lemma total_sales_floor df :
  Forall (fun o => (50 <= sales o)%Q) df ->
  (50 * inject_Z (Z.of_nat (total_orders df)) <= total_sales df)%Q.
Proof.
  unfold total_orders, total_sales.
  induction 1 as [|o df Ho Hall IH]; [discriminate|].
  cbn [List.length map Qsum fold_right].
  rewrite Nat2Z.inj_succ, <- Z.add_1_r, inject_Z_plus.
  change (fold_right Qplus 0%Q (map sales df)) with (Qsum (map sales df)).
  change (inject_Z 1) with 1%Q. lra.
Qed.

Lemma avg_order_value_floor df :
  Forall (fun o => (50 <= sales o)%Q) df ->
  match avg_order_value df with
  | Some a => (50 <= a)%Q
  | None => df = []
  end.
Proof.
  intros Hall. destruct df as [|o df']; [reflexivity|].
  unfold avg_order_value. set (df := o :: df') in *.
  apply Qle_shift_div_l.
  - change 0%Q with (inject_Z 0). rewrite <- Zlt_Qlt. subst df. simpl. lia.
  - apply (total_sales_floor df Hall).
Qed.

(** X10 (key metrics of a view of the generated frame).  Whatever the
    selection, Total Profit is at most 30 percent of Total Sales, Total
    Sales is at least 50 times Total Orders, and the Average Order Value is
    at least 50, or NaN when the view is empty. *)
Theorem generated_view_metrics :
  forall (RS : RandomState) (s : Z) (g : rng) (ys : list Z) (cs rs : list string),
  exists df g',
    generate s g = Some (df, g')
    /\ let view := filter_df ys cs rs df in
       (total_profit view <= (3 # 10) * total_sales view)%Q
       /\ (50 * inject_Z (Z.of_nat (total_orders view)) <= total_sales view)%Q
       /\ match avg_order_value view with
          | Some a => (50 <= a)%Q
          | None => view = []
          end.
Proof.
  intros RS s g ys cs rs.
  destruct (generated_view s ys cs rs g) as (df & g' & E & Hall).
  exists df, g'. split; [exact E|]. intros view. fold view in Hall.
  assert (Hfloor : Forall (fun o => (50 <= sales o)%Q) view).
  { revert Hall. apply Forall_impl. intros o ((_ & Hs & _) & _). exact Hs. }
  split; [|split].
  - apply total_profit_bound. revert Hall. apply Forall_impl.
    intros o (_ & Hp & _). now apply profit_of_draw_upper.
  - now apply total_sales_floor.
  - now apply avg_order_value_floor.
Qed.

(* ================================================================== *)
(** ** The size and the order of the charts of a generated view       *)
(* ================================================================== *)

Lemma sorted_keys_length {K} `{Key K} (l u : list K) :
  (forall x, In x l -> In x u) ->
  (List.length (sorted_keys l) <= List.length u)%nat.
Proof.
  intros Hin. apply NoDup_incl_length; [apply sorted_keys_NoDup|].
  intros x Hx. apply Hin. now apply sorted_keys_In.
Qed.

Lemma groupby_sum_length {K} `{Key K} {R} (key : R -> K) (val : R -> Q)
  (df : list R) (u : list K) :
  (forall r, In r df -> In (key r) u) ->
  (List.length (groupby_sum key val df) <= List.length u)%nat.
Proof.
  intros Hin. unfold groupby_sum. rewrite length_map.
  apply sorted_keys_length. intros k Hk. apply in_map_iff in Hk.
  destruct Hk as (r & <- & Hr). now apply Hin.
Qed.

Lemma generated_order_period o :
  generated_order o -> In (year_month o) generator_periods.
Proof.
  intros (_ & _ & (Hd & _ & _ & Hy & Hm & Hym) & _).
  destruct (dates_calendar _ Hd) as (_ & _ & Hp).
  rewrite Hym, Hy, Hm. exact Hp.
Qed.

(** X11 (size of the charts of a view of the generated frame).  Whatever
    the selection, the bar chart has at most 3 bars, the heatmap at most 4
    rows of at most 3 cells each, the monthly table at most 108 rows (36
    months by 3 categories), and the view spans at most 3 years. *)
Theorem generated_view_chart_sizes :
  forall (RS : RandomState) (s : Z) (g : rng) (ys : list Z) (cs rs : list string),
  exists df g',
    generate s g = Some (df, g')
    /\ let view := filter_df ys cs rs df in
       (List.length (category_sales view) <= 3)%nat
       /\ (List.length (heatmap_data view) <= 4)%nat
       /\ Forall (fun row => (List.length (snd row) <= 3)%nat) (heatmap_data view)
       /\ (List.length (monthly_sales view) <= 108)%nat
       /\ (List.length (year_options view) <= 3)%nat.
Proof.
  intros RS s g ys cs rs.
  destruct (generated_view s ys cs rs g) as (df & g' & E & Hall).
  exists df, g'. split; [exact E|]. intros view. fold view in Hall.
  rewrite Forall_forall in Hall.
  assert (Hcat : forall c, In c (map category view) -> In c categories).
  { intros c Hc. apply in_map_iff in Hc. destruct Hc as (o & <- & Ho).
    destruct (Hall o Ho) as (_ & _ & (_ & Hc & _) & _). exact Hc. }
  assert (Hreg : forall r, In r (map region view) -> In r regions).
  { intros r Hr. apply in_map_iff in Hr. destruct Hr as (o & <- & Ho).
    destruct (Hall o Ho) as (_ & _ & (_ & _ & Hr & _) & _). exact Hr. }
  split; [|split; [|split; [|split]]].
  - apply (groupby_sum_length category sales view categories).
    intros o Ho. apply Hcat. now apply in_map.
  - rewrite heatmap_data_form, length_map.
    now apply (sorted_keys_length (map region view) regions).
  - rewrite heatmap_data_form. apply Forall_forall.
    intros row Hrow. apply in_map_iff in Hrow. destruct Hrow as (r & <- & _).
    simpl. rewrite length_map.
    now apply (sorted_keys_length (map category view) categories).
  - apply (groupby_sum_length (fun o => (year_month o, category o)) sales view
             (list_prod generator_periods categories)).
    intros o Ho. apply in_prod.
    + apply generated_order_period. now apply Hall.
    + apply Hcat. now apply in_map.
  - apply (NoDup_incl_length (l' := [2021; 2022; 2023])).
    + apply (Permutation_NoDup (Permutation_sym (py_sorted_perm _))).
      apply unique_NoDup.
    + intros y Hy. apply year_options_In, in_map_iff in Hy.
      destruct Hy as (o & <- & Ho).
      destruct (Hall o Ho) as (_ & _ & (Hd & _ & _ & Hyr & _) & _).
      destruct (dates_calendar _ Hd) as (Hrange & _). rewrite Hyr.
      simpl. lia.
Qed.

(** On the months of the generator the text of a period orders as the
    period does. *)
Lemma period_str_monotone p q :
  In p generator_periods -> In q generator_periods ->
  key_ltb p q = true -> String_as_OT.lt (period_str p) (period_str q).
Proof.
  assert (E : forallb (fun p =>
                forallb (fun q => implb (key_ltb p q)
                                        (string_ltb (period_str p) (period_str q)))
                        generator_periods)
              generator_periods = true)
    by (vm_compute; reflexivity).
  intros Hp Hq Hlt. rewrite forallb_forall in E. specialize (E p Hp).
  rewrite forallb_forall in E. specialize (E q Hq).
  rewrite Hlt in E. simpl in E. now apply string_ltb_lt.
Qed.

(** X12 (order of the line-plot table of a generated view).  Whatever
    the selection, the rows handed to the line plot are in strictly
    ascending order of the text of their month ("2021-01" to "2023-12")
    and, within a month, of their category: rendering the periods as text
    keeps the chronological order of the monthly table. *)
Theorem generated_view_line_plot_ordered :
  forall (RS : RandomState) (s : Z) (g : rng) (ys : list Z) (cs rs : list string),
  exists df g',
    generate s g = Some (df, g')
    /\ StronglySorted label_row_before
                      (create_line_plot (filter_df ys cs rs df)).
Proof.
  intros RS s g ys cs rs.
  destruct (generated_view s ys cs rs g) as (df & g' & E & Hall).
  exists df, g'. split; [exact E|].
  set (view := filter_df ys cs rs df) in *.
  unfold create_line_plot. apply StronglySorted_map_iff.
  pose proof (sorted_keys_sorted (map month_and_category view)) as Hs.
  rewrite <- (groupby_sum_keys month_and_category sales) in Hs.
  apply (proj1 (StronglySorted_map_iff fst key_lt _)) in Hs.
  apply (StronglySorted_impl_in (fun a b => key_lt (fst a) (fst b)));
    [|exact Hs].
  assert (Hper : forall e, In e (monthly_sales view) ->
                           In (fst (fst e)) generator_periods).
  { intros [k v] He. apply groupby_sum_In in He. destruct He as [Hk _].
    apply in_map_iff in Hk. destruct Hk as (o & <- & Ho). simpl.
    apply generated_order_period. rewrite Forall_forall in Hall. now apply Hall. }
  intros a b Ha Hb Hab. unfold label_row_before. simpl.
  apply pair_ltb_spec in Hab. destruct Hab as [Hp | [Ep Hc]].
  - left. apply period_str_monotone; [now apply Hper | now apply Hper | exact Hp].
  - right. split; [now rewrite Ep | now apply string_ltb_lt].
Qed.

(* ================================================================== *)
(** ** The top sub-categories of a small frame                        *)
(* ================================================================== *)

Lemma Qsum_perm (l l' : list Q) :
  Permutation l l' -> (Qsum l == Qsum l')%Q.
Proof.
  induction 1 as [| x l l' P IH | x y l | l l' l'' P1 IH1 P2 IH2]; simpl.
  - reflexivity.
  - now rewrite IH.
  - ring.
  - now rewrite IH1.
Qed.

(** X13 (at most five sub-categories).  When the frame has at most five
    distinct sub-categories the chart of the top sub-categories leaves none
    out: it is a rearrangement of all the sub-category totals, and its bars
    add up to the total of the Sales column. *)
Theorem top_subcats_complete_when_few :
  forall (AS : ArgSort) (df : DataFrame),
    (List.length (groupby_sum sub_category sales df) <= 5)%nat ->
    Permutation (top_subcats (AS := AS) df) (groupby_sum sub_category sales df)
    /\ (Qsum (map snd (top_subcats (AS := AS) df)) == total_sales df)%Q.
Proof.
  intros AS df Hfew.
  assert (P : Permutation (top_subcats (AS := AS) df)
                          (groupby_sum sub_category sales df)).
  { unfold top_subcats, head. rewrite firstn_all2.
    - apply sort_values_desc_perm.
    - now rewrite (Permutation_length (sort_values_desc_perm _)). }
  split; [exact P|].
  rewrite (Qsum_perm _ _ (Permutation_map snd P)).
  apply groupby_sum_total.
Qed.

Lemma top_subcats_complete_when_few_witness :
  (List.length (groupby_sum sub_category sales scenario) <= 5)%nat
  /\ Permutation (top_subcats (AS := insertion_sort) scenario)
                 (groupby_sum sub_category sales scenario)
  /\ (Qsum (map snd (top_subcats (AS := insertion_sort) scenario))
      == total_sales scenario)%Q.
Proof.
  split.
  - vm_compute. lia.
  - apply (top_subcats_complete_when_few insertion_sort scenario).
    vm_compute. lia.
Defined.

(* ================================================================== *)
(** ** The guard of the charts                                        *)
(* ================================================================== *)

Lemma sorted_keys_nonempty {K} `{Key K} (x : K) (l : list K) :
  sorted_keys (x :: l) <> [].
Proof.
  intros E. assert (Hin : In x (sorted_keys (x :: l)))
    by (apply sorted_keys_In; now left).
  rewrite E in Hin. exact Hin.
Qed.

Lemma groupby_sum_nonempty {K} `{Key K} {R} (key : R -> K) (val : R -> Q)
  (r : R) (df : list R) :
  groupby_sum key val (r :: df) <> [].
Proof.
  unfold groupby_sum. intros E. apply map_eq_nil in E.
  exact (sorted_keys_nonempty (key r) (map key df) E).
Qed.

(** On a frame with a row the pivot has a cell, and the heatmap is drawn
    from it. *)
Lemma create_heatmap_nonempty o df :
  create_heatmap (o :: df) = Returns (heatmap_data (o :: df)).
Proof.
  unfold create_heatmap, sns_heatmap.
  assert (Hcell : has_cell (heatmap_data (o :: df)) = true).
  { rewrite heatmap_data_form.
    remember (sorted_keys (map region (o :: df))) as rows eqn:Er.
    remember (sorted_keys (map category (o :: df))) as cols eqn:Ec.
    destruct rows as [|r rows].
    { exfalso.
      exact (sorted_keys_nonempty (region o) (map region df) (eq_sym Er)). }
    destruct cols as [|c cols].
    { exfalso.
      exact (sorted_keys_nonempty (category o) (map category df) (eq_sym Ec)). }
    reflexivity. }
  now rewrite Hcell.
Qed.

(** C3 (empty input), as the code has it.  On the empty frame the three
    grouped tables are empty and the pivot of the heatmap is empty too: it
    has no row and no column, so no cell at any label.  [create_heatmap]
    raises [ValueError] when it draws that pivot, and on no other frame.
    [main] never meets that failure: it skips every chart on an empty view,
    and on any other view the heatmap is drawn. *)
Theorem aggregations_of_empty_frame :
  monthly_sales [] = []
  /\ category_sales [] = []
  /\ (forall AS : ArgSort, top_subcats (AS := AS) [] = [])
  /\ heatmap_data [] = []
  /\ (forall r c : string, matrix_get (heatmap_data []) r c = None)
  /\ (forall AS : ArgSort,
        main_charts (AS := AS) [] = mkCharts None None None None)
  /\ create_heatmap [] = ValueError
  /\ (forall view : DataFrame, create_heatmap view = ValueError <-> view = [])
  /\ (forall (AS : ArgSort) (view : DataFrame),
        heatmap_fig (main_charts (AS := AS) view) <> Some ValueError).
Proof.
  split; [reflexivity|]. split; [reflexivity|]. split; [reflexivity|].
  split; [reflexivity|]. split; [reflexivity|]. split; [reflexivity|].
  split; [reflexivity|]. split.
  - intros [|o df]; split; intros H; try reflexivity.
    + rewrite create_heatmap_nonempty in H. discriminate H.
    + discriminate H.
  - intros AS [|o df].
    + discriminate.
    + unfold main_charts. cbn [List.length Nat.ltb Nat.leb heatmap_fig].
      rewrite create_heatmap_nonempty. discriminate.
Qed.

(** X14 (a drawn chart is never empty).  Each of the four charts is
    either skipped, and then the view is empty, or drawn from a table with
    at least one row; the heatmap is then drawn without error from a matrix
    with at least one row and every row at least one cell. *)
Theorem drawn_charts_are_nonempty :
  forall (AS : ArgSort) (view : DataFrame),
    match line_fig (main_charts (AS := AS) view) with
    | Some t => t <> []
    | None => view = []
    end
    /\ match bar_fig (main_charts (AS := AS) view) with
       | Some t => t <> []
       | None => view = []
       end
    /\ match top_chart (main_charts (AS := AS) view) with
       | Some t => t <> []
       | None => view = []
       end
    /\ match heatmap_fig (main_charts (AS := AS) view) with
       | Some (Returns m) => m <> [] /\ Forall (fun row => snd row <> []) m
       | Some ValueError => False
       | None => view = []
       end.
Proof.
  intros AS [|o df]; [repeat split|].
  unfold main_charts. cbn [List.length Nat.ltb Nat.leb].
  cbn [line_fig bar_fig top_chart heatmap_fig].
  split; [|split; [|split]].
  - unfold create_line_plot. intros E. apply map_eq_nil in E.
    exact (groupby_sum_nonempty _ _ _ _ E).
  - apply groupby_sum_nonempty.
  - intros E. apply (f_equal (@List.length _)) in E.
    rewrite top_subcats_length in E.
    pose proof (groupby_sum_nonempty sub_category sales o df) as Hne.
    destruct (groupby_sum sub_category sales (o :: df)); [congruence|].
    discriminate E.
  - rewrite create_heatmap_nonempty, heatmap_data_form. split.
    + intros E. apply map_eq_nil in E.
      exact (sorted_keys_nonempty (region o) (map region df) E).
    + apply Forall_forall. intros row Hrow. apply in_map_iff in Hrow.
      destruct Hrow as (r & <- & _). cbn [snd]. intros E.
      apply map_eq_nil in E.
      exact (sorted_keys_nonempty (category o) (map category df) E).
Qed.

(* ================================================================== *)
(** ** The dashboard as it opens                                      *)
(* ================================================================== *)

(** X15 (the dashboard with its default selections).  With the default
    selections the view is the whole generated frame: Total Orders is 5000
    and the four charts are drawn from the full frame, the heatmap without
    error from the pivot of the full frame. *)
Theorem default_dashboard_shows_whole_frame :
  forall (RS : RandomState) (AS : ArgSort) (s : Z) (g : rng),
  exists df g',
    generate s g = Some (df, g')
    /\ let view := filter_df (year_options df) (category_options df)
                             (region_options df) df in
       view = df
       /\ total_orders view = 5000%nat
       /\ main_charts (AS := AS) view
          = mkCharts (Some (create_line_plot df)) (Some (create_bar_chart df))
                     (Some (top_subcats (AS := AS) df))
                     (Some (create_heatmap df))
       /\ create_heatmap df = Returns (heatmap_data df).
Proof.
  intros RS AS s g.
  destruct (generate_ok s g) as (df & g' & E & Hlen & _).
  exists df, g'. split; [exact E|]. intros view.
  assert (Ev : view = df) by apply filter_df_default_selection.
  rewrite Ev. split; [reflexivity|]. split; [exact Hlen|]. split.
  - unfold main_charts. rewrite Hlen. reflexivity.
  - destruct df as [|o df']; [discriminate Hlen|].
    apply create_heatmap_nonempty.
Qed.
